(** * Tandem service stations with feedback: the discrete-event engine of
  [sim.ipynb], its metrics reducer and its replication controller.

  Floating-point times and rates are modelled as rationals ([Q]); the
  random module is an oracle of draws indexed by a counter that the
  simulation state carries along. *)

From Stdlib Require Import QArith ZArith Lia Lqa Sorted.
From stdpp Require Import base option list gmap.

(** ** Outcomes of a Python computation *)

Inductive exn := IndexError | ZeroDivisionError.

(** [Timeout] stands for a computation that has not returned within the
  fuel it was given (or blocks for ever). *)
Inductive outcome (A : Type) :=
  | Ret (x : A)
  | Raise (e : exn)
  | Timeout.
Arguments Ret {A} x.
Arguments Raise {A} e.
Arguments Timeout {A}.

#[global] Instance outcome_ret : MRet outcome := @Ret.
#[global] Instance outcome_bind : MBind outcome := fun A B f m =>
  match m with
  | Ret x => f x
  | Raise e => Raise e
  | Timeout => Timeout
  end.

(** [l[i]] on a Python list, for a non-negative index. *)
Definition getitem {A} (l : list A) (i : nat) : outcome A :=
  match l !! i with
  | Some x => Ret x
  | None => Raise IndexError
  end.

(** Strict comparison of two floats. *)
Definition Qlt_bool (x y : Q) : bool :=
  match (x ?= y)%Q with
  | Lt => true
  | _ => false
  end.

(** ** Event kinds *)

Inductive EventType := ASIGNED | ARRIVAL | FINISH.

(** The values [auto()] hands out, in declaration order. *)
Definition value (e : EventType) : nat :=
  match e with
  | ASIGNED => 1
  | ARRIVAL => 2
  | FINISH => 3
  end.

(** [EventType.__lt__] *)
Definition EventType_lt (self other : EventType) : bool :=
  value self <? value other.

(** Enum members are equal when they are the same member. *)
Definition EventType_eqb (x y : EventType) : bool :=
  value x =? value y.

(** ** The event queue

  An event is the tuple [(t, (e, c, i))] the engine puts on its
  [PriorityQueue]. Python compares tuples lexicographically: the first
  position where the two differ (by [==]) decides, by [<]. *)

Definition Event : Type := Q * (EventType * nat * nat).

Definition payload_lt (x y : EventType * nat * nat) : bool :=
  let '(e1, c1, i1) := x in
  let '(e2, c2, i2) := y in
  if negb (EventType_eqb e1 e2) then EventType_lt e1 e2
  else if negb (c1 =? c2) then c1 <? c2
  else i1 <? i2.

Definition event_lt (x y : Event) : bool :=
  if negb (Qeq_bool (fst x) (fst y)) then Qlt_bool (fst x) (fst y)
  else payload_lt (snd x) (snd y).

(** [queue.PriorityQueue]: [get] hands out a least pending entry for [<].
  On event tuples [<] is a strict total order whose incomparable entries
  are equal tuples, so what [get] returns does not depend on how the
  heap is laid out; the pending entries are kept here as a sequence in
  ascending order. *)
Module pq.

Fixpoint put (x : Event) (h : list Event) : list Event :=
  match h with
  | [] => [x]
  | y :: h' => if event_lt x y then x :: h else y :: put x h'
  end.

Definition get (h : list Event) : option (Event * list Event) :=
  match h with
  | [] => None
  | x :: h' => Some (x, h')
  end.

Definition empty (h : list Event) : bool :=
  match h with
  | [] => true
  | _ => false
  end.

End pq.

(** ** The random module

  [exp_draw k] is the value of [-log(1 - random())] at the [k]-th draw,
  [unif_draw k] the value of [random.uniform(0, 1)], and [choice_draw k]
  the raw integer from which [random.choice] takes its index. *)
Record Oracle := {
  exp_draw : nat -> Q;
  unif_draw : nat -> Q;
  choice_draw : nat -> nat
}.

Module random.

(** [-log(1 - random()) / lambd] *)
Definition expovariate (O : Oracle) (lambd : Q) (k : nat) : outcome Q :=
  if Qeq_bool lambd 0 then Raise ZeroDivisionError
  else Ret (exp_draw O k / lambd)%Q.

Definition uniform01 (O : Oracle) (k : nat) : Q := unif_draw O k.

Definition choice {A} (O : Oracle) (l : list A) (k : nat) : outcome A :=
  getitem l (choice_draw O k mod length l).

End random.

(** ** Simulation state: the local variables of [servers_simulation],
  and the number of random draws made so far. *)
Record State := mkState {
  s_t : Q;
  s_events : list Event;
  s_n_a : nat;
  s_n_d : nat;
  s_a : list (gmap nat (list Q));
  s_q : list (gmap nat (list Q));
  s_d : list (gmap nat (list Q));
  s_queue : list (list nat);
  s_rng : nat
}.

(** [m.get(c, list())] followed by [append(t)]. *)
Definition stamped (m : gmap nat (list Q)) (c : nat) (t : Q) : list Q :=
  default [] (m !! c) ++ [t].

Section servers_simulation.

Variables (time : Q) (n : Z) (lambda_arrival_time : Q).
Variables (mu_wait_time p : list Q) (finish : bool).
Variable O : Oracle.

(** One pass through the body of the [while] loop. *)
Definition loop_body (s : State) : outcome State :=
  match pq.get (s_events s) with
  | None => Timeout
  | Some ((t, (e, c, i)), events) =>
    match e with
    | ASIGNED =>
      let index := if negb (i =? 0) then c else s_n_a s in
      q_i ← getitem (s_q s) i;
      let q := <[i := <[index := stamped q_i index t]> q_i]> (s_q s) in
      queue_i ← getitem (s_queue s) i;
      let events :=
        if length queue_i =? 0 then pq.put (t, (ARRIVAL, index, i)) events
        else events in
      let queue := <[i := queue_i ++ [index]]> (s_queue s) in
      if i =? 0 then
        t_next_a ← random.expovariate O lambda_arrival_time (s_rng s);
        let events :=
          if Qlt_bool (t + t_next_a) time
          then pq.put ((t + t_next_a)%Q, (ASIGNED, 0, 0)) events
          else events in
        Ret (mkState t events (S (s_n_a s)) (s_n_d s) (s_a s) q (s_d s)
               queue (S (s_rng s)))
      else
        Ret (mkState t events (s_n_a s) (s_n_d s) (s_a s) q (s_d s)
               queue (s_rng s))
    | ARRIVAL =>
      a_i ← getitem (s_a s) i;
      let a := <[i := <[c := stamped a_i c t]> a_i]> (s_a s) in
      mu ← getitem mu_wait_time i;
      duration ← random.expovariate O mu (s_rng s);
      let events := pq.put ((t + duration)%Q, (FINISH, c, i)) events in
      Ret (mkState t events (s_n_a s) (s_n_d s) a (s_q s) (s_d s)
             (s_queue s) (S (s_rng s)))
    | FINISH =>
      queue_i ← getitem (s_queue s) i;
      let queue_i := if 0 <? length queue_i then tail queue_i else queue_i in
      let queue := <[i := queue_i]> (s_queue s) in
      let events :=
        match queue_i with
        | c' :: _ => pq.put (t, (ARRIVAL, c', i)) events
        | [] => events
        end in
      d_i ← getitem (s_d s) i;
      let d := <[i := <[c := stamped d_i c t]> d_i]> (s_d s) in
      if (Z.of_nat i =? n - 1)%Z then
        Ret (mkState t events (s_n_a s) (S (s_n_d s)) (s_a s) (s_q s) d
               queue (s_rng s))
      else
        '(next_server, rng) ←
          (if i =? 0 then Ret (i + 1, s_rng s)
           else
             let u := random.uniform01 O (s_rng s) in
             p_i ← getitem p i;
             if Qlt_bool p_i u then Ret (i + 1, S (s_rng s))
             else
               j ← random.choice O (seq 0 i) (S (s_rng s));
               Ret (j, S (S (s_rng s))));
        let events := pq.put (t, (ASIGNED, c, next_server)) events in
        Ret (mkState t events (s_n_a s) (s_n_d s) (s_a s) (s_q s) d
               queue rng)
    end
  end.

(** The guard of the [while] loop. *)
Definition loop_guard (s : State) : bool :=
  (finish || Qlt_bool (s_t s) time) && negb (pq.empty (s_events s)).

Fixpoint while_loop (fuel : nat) (s : State) : outcome State :=
  if loop_guard s then
    match fuel with
    | 0 => Timeout
    | S fuel' => s' ← loop_body s; while_loop fuel' s'
    end
  else Ret s.

(** The state on entry to the loop: everything initialised and the
    first client's arrival on the queue. *)
Definition initial_state : outcome State :=
  let t := 0%Q in
  let slots := replicate (Z.to_nat n) (∅ : gmap nat (list Q)) in
  first ← random.expovariate O lambda_arrival_time 0;
  Ret (mkState t (pq.put ((t + first)%Q, (ASIGNED, 0, 0)) []) 0 0
         slots slots slots (replicate (Z.to_nat n) []) 1).

Definition servers_simulation (fuel : nat) : outcome State :=
  s ← initial_state; while_loop fuel s.

(** The state after [k] passes of the loop, or the final state when the
    loop stops earlier. *)
Fixpoint passes (k : nat) (s : State) : outcome State :=
  match k with
  | 0 => Ret s
  | S k' =>
    if loop_guard s then s' ← loop_body s; passes k' s'
    else Ret s
  end.

Definition snapshot (k : nat) : outcome State :=
  s ← initial_state; passes k s.

End servers_simulation.

(** ** numpy reductions

  A float that may be [nan] is an [option Q], [None] for [nan]. The
  square root is not rational: [std] takes it as an argument. *)
Module np.

Definition of_nat (k : nat) : Q := inject_Z (Z.of_nat k).

(** Python's [sum]: a left fold from [0]. *)
Definition sum (l : list Q) : Q := foldl Qplus 0%Q l.

(** [np.mean] of numbers: [nan] on an empty sequence. *)
Definition mean (l : list Q) : option Q :=
  match l with
  | [] => None
  | _ => Some (sum l / of_nat (length l))%Q
  end.

(** [np.mean] of floats: a [nan] entry makes the result [nan]. *)
Definition nanmean (l : list (option Q)) : option Q :=
  mapM id l ≫= mean.

Definition var (l : list (option Q)) : option Q :=
  xs ← mapM id l;
  m ← mean xs;
  mean ((fun x => (x - m) * (x - m))%Q <$> xs).

Definition std (sqrt : Q -> Q) (l : list (option Q)) : option Q :=
  sqrt <$> var l.

End np.

(** ** The metrics reducer *)

Record Metrics := mkMetrics {
  m_time : Q;
  m_n_d : nat;
  m_wait_time : list (option Q);
  m_use_time : list (option Q);
  m_system_time : list Q
}.

(** [sum(y - x for x, y in zip(xs, ys)) / k] *)
Definition visit_mean (xs ys : list Q) (k : nat) : Q :=
  (np.sum (zip_with (fun x y => y - x)%Q xs ys) / np.of_nat k)%Q.

Section metrics.

(** What [servers_simulation] returned. *)
Variables (t : Q) (n : Z) (n_a n_d : nat).
Variables (q a d : list (gmap nat (list Q))).

(** The body of [for c in range(n_a)] at station [s], on the three
    lists it updates: [wait_time_per_client], [use_time_per_client] and
    [system_time]. (The counters [on_queue] and [processing] are never
    read.) [q[s]] is in range: [s] runs over [range(n)] and [q] has [n]
    entries. *)
Definition client_body (s : nat) (acc : list Q * list Q * list Q) (c : nat)
  : list Q * list Q * list Q :=
  let '(wait_time_per_client, use_time_per_client, system_time) := acc in
  let q_t := default [] ((q !!! s) !! c) in
  let a_t := default [] ((a !!! s) !! c) in
  let d_t := default [] ((d !!! s) !! c) in
  if length q_t =? 0 then acc
  else if length a_t =? 0 then
    (wait_time_per_client ++ [(t - default 0 (head q_t))%Q],
     use_time_per_client, system_time)
  else if length d_t =? 0 then
    (wait_time_per_client ++ [visit_mean q_t a_t (length a_t)],
     use_time_per_client, system_time)
  else
    let w_t := visit_mean q_t a_t (length a_t) in
    let u_t := visit_mean a_t d_t (length a_t) in
    let system_time :=
      if (s =? 0) && (c <? n_d)
      then alter (fun x => (x - default 0 (head q_t))%Q) c system_time
      else system_time in
    let system_time :=
      if (Z.of_nat s =? n - 1)%Z && (c <? n_d)
      then alter (fun x => (x + default 0 (last d_t))%Q) c system_time
      else system_time in
    (wait_time_per_client ++ [w_t], use_time_per_client ++ [u_t],
     system_time).

(** The body of [for s in range(n)], on [wait_time], [use_time] and
    [system_time]. *)
Definition station_body
  (acc : list (option Q) * list (option Q) * list Q) (s : nat)
  : list (option Q) * list (option Q) * list Q :=
  let '(wait_time, use_time, system_time) := acc in
  let '(wait_time_per_client, use_time_per_client, system_time) :=
    foldl (client_body s) ([], [], system_time) (seq 0 n_a) in
  (wait_time ++ [np.mean wait_time_per_client],
   use_time ++ [np.mean use_time_per_client], system_time).

Definition reduce : Metrics :=
  let '(wait_time, use_time, system_time) :=
    foldl station_body ([], [], replicate n_a 0%Q) (seq 0 (Z.to_nat n)) in
  mkMetrics t n_d wait_time use_time system_time.

End metrics.

Definition metrics_by_simulation (time : Q) (n : Z) (lambda_arrival_time : Q)
  (mu_wait_time p : list Q) (finish : bool) (O : Oracle) (fuel : nat)
  : outcome Metrics :=
  s ← servers_simulation time n lambda_arrival_time mu_wait_time p finish O fuel;
  Ret (reduce (s_t s) n (s_n_a s) (s_n_d s) (s_q s) (s_a s) (s_d s)).

(** ** The replication controller *)

(** The three sequences of per-run means. *)
Record Accum := mkAccum {
  acc_system_time : list (option Q);
  acc_wait_time : list (option Q);
  acc_use_time : list (option Q)
}.

(** The three [append]s that follow a run. *)
Definition record_run (acc : Accum) (metrics : Metrics) : Accum :=
  mkAccum (acc_system_time acc ++ [np.mean (m_system_time metrics)])
        (acc_wait_time acc ++ [np.nanmean (m_wait_time metrics)])
        (acc_use_time acc ++ [np.nanmean (m_use_time metrics)]).

(** The dictionary [run_simulation] returns: a (variance, mean) pair per
  metric. *)
Record Report := mkReport {
  Wait_Time : option Q * option Q;
  Use_Time : option Q * option Q;
  System_Time : option Q * option Q
}.

Section run_simulation.

Variables (time : Q) (n : Z) (lambda_arrival_time : Q).
Variables (mu_wait_time p : list Q) (finish : bool).
(** Replication [k] draws from [Os k]; each run is given [fuel]. *)
Variable Os : nat -> Oracle.
Variable fuel : nat.
(** [np.std], from numpy. *)
Variable np_std : list (option Q) -> option Q.
Variables (min_iterations max_iterations : nat).
Variable convergence_threshold : Q.

(** [standard_deviation/len(system_time) < convergence_threshold];
    a comparison with [nan] is false. *)
Definition converged (system_time : list (option Q)) : bool :=
  match np_std system_time with
  | Some standard_deviation =>
      Qlt_bool (standard_deviation / np.of_nat (length system_time))
        convergence_threshold
  | None => false
  end.

(** [while True]: [k] bounds the passes still allowed. *)
Fixpoint controller_loop (k iterations : nat) (acc : Accum) : outcome Accum :=
  match k with
  | 0 => Timeout
  | S k' =>
    metrics ← metrics_by_simulation time n lambda_arrival_time mu_wait_time
                p finish (Os iterations) fuel;
    let acc := record_run acc metrics in
    let iterations := S iterations in
    if max_iterations <=? iterations then Ret acc
    else if (min_iterations <=? iterations)
            && converged (acc_system_time acc)
    then Ret acc
    else controller_loop k' iterations acc
  end.

(** The sequences on leaving the loop; it is left after at most
    [max_iterations] passes, and after one when that bound is 0. *)
Definition replications : outcome Accum :=
  controller_loop (Nat.max 1 max_iterations) 0 (mkAccum [] [] []).

Definition controller : outcome Report :=
  acc ← replications;
  Ret (mkReport
         (np.var (acc_wait_time acc), np.nanmean (acc_wait_time acc))
         (np.var (acc_use_time acc), np.nanmean (acc_use_time acc))
         (np.var (acc_system_time acc), np.nanmean (acc_system_time acc))).

End run_simulation.

(** [run_simulation] with the constants it fixes. *)
Definition min_iterations : nat := 1000.
Definition max_iterations : nat := 5000.
Definition convergence_threshold : Q := 1 # 1000.

Definition run_simulation (time : Q) (n : Z) (lambda_arrival_time : Q)
  (mu_wait_time p : list Q) (finish : bool) (Os : nat -> Oracle)
  (fuel : nat) (np_sqrt : Q -> Q) : outcome Report :=
  controller time n lambda_arrival_time mu_wait_time p finish Os fuel
  (np.std np_sqrt) min_iterations max_iterations convergence_threshold.


(** * Vocabulary of the statements *)

Definition ev_kind (x : Event) : EventType := x.2.1.1.
Definition ev_client (x : Event) : nat := x.2.1.2.
Definition ev_station (x : Event) : nat := x.2.2.

(** Number of pending events that satisfy [f]. *)
Fixpoint count_ev (f : Event -> bool) (h : list Event) : nat :=
  match h with
  | [] => 0
  | x :: h' => (if f x then 1 else 0) + count_ev f h'
  end.

(** A service at station [i] is about to start or under way. *)
Definition serving (i : nat) (x : Event) : bool :=
  match ev_kind x with
  | ASIGNED => false
  | _ => ev_station x =? i
  end.

(** Client [c] is in service at station [i]. *)
Definition finishing (i c : nat) (x : Event) : bool :=
  match ev_kind x with
  | FINISH => (ev_station x =? i) && (ev_client x =? c)
  | _ => false
  end.

(** A client is on its way to a station other than the first. *)
Definition in_transit (x : Event) : bool :=
  match ev_kind x with
  | ASIGNED => negb (ev_station x =? 0)
  | _ => false
  end.

(** An entry into station 0 is pending. *)
Definition external (x : Event) : bool :=
  match ev_kind x with
  | ASIGNED => ev_station x =? 0
  | _ => false
  end.

Definition busy (l : list nat) : nat :=
  match l with
  | [] => 0
  | _ => 1
  end.

(** The timestamps recorded for client [c] at station [i]:
    [m[i].get(c, list())]. *)
Definition stamps (m : list (gmap nat (list Q))) (i c : nat) : list Q :=
  default [] ((m !!! i) !! c).

(** Occurrences of client [c] in a station's queue. *)
Definition occ (c : nat) (l : list nat) : nat := count_occ Nat.eq_dec l c.

(** What holds between two passes of the loop, for [N] stations. *)
Record invariant (N : nat) (s : State) : Prop := {
  inv_len_q : length (s_q s) = N;
  inv_len_a : length (s_a s) = N;
  inv_len_d : length (s_d s) = N;
  inv_len_queue : length (s_queue s) = N;
  inv_station : Forall (fun x => ev_station x < N) (s_events s);
  inv_serving :
    forall i, count_ev (serving i) (s_events s) = busy (s_queue s !!! i);
  inv_head :
    Forall (fun x => ev_kind x <> ASIGNED ->
              head (s_queue s !!! ev_station x) = Some (ev_client x))
      (s_events s);
  inv_queue_entry : forall i c,
    length (stamps (s_q s) i c)
    = length (stamps (s_d s) i c) + occ c (s_queue s !!! i);
  inv_service_start : forall i c,
    length (stamps (s_a s) i c)
    = length (stamps (s_d s) i c) + count_ev (finishing i c) (s_events s);
  inv_counters :
    s_n_d s + sum_list_with length (s_queue s)
    + count_ev in_transit (s_events s) <= s_n_a s
}.

(** The state of a run with no station: nothing but the first arrival. *)
Definition stillborn (s : State) : Prop :=
  s_q s = [] /\ s_a s = [] /\ s_d s = [] /\ s_queue s = [] /\
  s_n_a s = 0 /\ s_n_d s = 0 /\ exists t, s_events s = [(t, (ASIGNED, 0, 0))].

(** Clients that are in the network, and those that have left it. *)
Definition accounted (s : State) : nat :=
  s_n_d s + sum_list_with length (s_queue s) + count_ev in_transit (s_events s).

(** No feedback fires: every uniform draw exceeds every probability. *)
Definition always_forward (p : list Q) (O : Oracle) : Prop :=
  forall i p_i k, p !! i = Some p_i -> Qlt_bool p_i (unif_draw O k) = true.

(** Sequences of operations on the event queue. *)
Inductive pq_op := Put (x : Event) | Get.

Definition pq_apply (h : list Event) (o : pq_op) : list Event :=
  match o with
  | Put x => pq.put x h
  | Get => match pq.get h with
           | Some (_, h') => h'
           | None => h
           end
  end.

Definition pq_after (ops : list pq_op) : list Event := foldl pq_apply [] ops.

(** The order of the tuples, as a proposition. *)
Definition payload_before (x y : EventType * nat * nat) : Prop :=
  value x.1.1 < value y.1.1 \/
  (value x.1.1 = value y.1.1 /\
   (x.1.2 < y.1.2 \/ (x.1.2 = y.1.2 /\ x.2 < y.2))).

Definition event_before (x y : Event) : Prop :=
  (x.1 < y.1)%Q \/ (x.1 == y.1 /\ payload_before x.2 y.2).

Definition ascending (h : list Event) : Prop :=
  StronglySorted (fun x y => event_lt y x = false) h.

Definition returns {A} (m : outcome A) : bool :=
  match m with
  | Ret _ => true
  | _ => false
  end.

Section replications.

Variables (time : Q) (n : Z) (lambda_arrival_time : Q).
Variables (mu_wait_time p : list Q) (finish : bool).
Variable Os : nat -> Oracle.
Variable fuel : nat.

(** The [k]-th call of [metrics_by_simulation]. *)
Definition replication (k : nat) : outcome Metrics :=
  metrics_by_simulation time n lambda_arrival_time mu_wait_time p finish
    (Os k) fuel.

Definition metrics_of (k : nat) : Metrics :=
  match replication k with
  | Ret m => m
  | _ => mkMetrics 0 0 [] [] []
  end.

(** The three sequences once [j] runs have been recorded. *)
Definition acc_after (j : nat) : Accum :=
  foldl (fun acc k => record_run acc (metrics_of k)) (mkAccum [] [] [])
    (seq 0 j).

Variable np_std : list (option Q) -> option Q.
Variables (min_it max_it : nat).
Variable threshold : Q.

(** The loop is left once [j] runs have been recorded. *)
Definition stop_at (j : nat) : bool :=
  (max_it <=? j)
  || ((min_it <=? j) && converged np_std threshold (acc_system_time (acc_after j))).

End replications.

(** ** Concrete runs *)

Definition draws {A} (dflt : A) (l : list A) (k : nat) : A :=
  default dflt (l !! k).

Module runs.

(** One client; its service at station 0 ends after the horizon. *)
Definition late : Oracle :=
  {| exp_draw := draws 1%Q [3; 100; 20; 5]%Q;
     unif_draw := fun _ => (9 # 10)%Q;
     choice_draw := fun _ => 0 |}.

(** One client, sent back from station 1 to station 0 when the draw [u]
    does not exceed the feedback probability. *)
Definition fed_back (u : Q) : Oracle :=
  {| exp_draw := draws 1%Q [1; 100; 1; 1; 1; 1; 100]%Q;
     unif_draw := fun k => if k =? 4 then u else (9 # 10)%Q;
     choice_draw := fun _ => 0 |}.

(** Two clients; the first is sent back from station 2 to station 1 and
    is overtaken by the second. *)
Definition overtaken : Oracle :=
  {| exp_draw :=
       draws 1%Q [1; 1; 1 # 2; 1; 100; 1; 1; 3 # 2; 1 # 2; 1; 1; 1; 46]%Q;
     unif_draw := fun k => if k =? 10 then (3 # 10)%Q else (9 # 10)%Q;
     choice_draw := fun _ => 1 |}.

(** Two clients at one station; the second is still queued when the
    horizon stops the run. *)
Definition queued : Oracle :=
  {| exp_draw := draws 1%Q [1; 3; 20; 100]%Q;
     unif_draw := fun _ => (9 # 10)%Q;
     choice_draw := fun _ => 0 |}.

End runs.

(** ** Vocabulary of the further properties *)

(** Client numbers in use are below the arrival counter, and each of them
    has one queue entry at station 0. *)
Record numbered (s : State) : Prop := {
  num_events :
    Forall (fun x => external x = true \/ ev_client x < s_n_a s) (s_events s);
  num_queue : Forall (Forall (fun c => c < s_n_a s)) (s_queue s);
  num_q : forall i c, s_n_a s <= c -> stamps (s_q s) i c = [];
  num_a : forall i c, s_n_a s <= c -> stamps (s_a s) i c = [];
  num_d : forall i c, s_n_a s <= c -> stamps (s_d s) i c = [];
  num_first : forall c, c < s_n_a s -> length (stamps (s_q s) 0 c) = 1
}.

(** Visit by visit, the stamps of [late] are not before those of [early]. *)
Definition visits_ordered (early late : list Q) : Prop :=
  forall j x y, early !! j = Some x -> late !! j = Some y -> (x <= y)%Q.

(** The clock, the pending events and the recorded stamps agree. *)
Record timed (s : State) : Prop := {
  tm_sorted : ascending (s_events s);
  tm_pending : Forall (fun x => (s_t s <= x.1)%Q) (s_events s);
  tm_q : forall i c, Forall (fun x => (x <= s_t s)%Q) (stamps (s_q s) i c);
  tm_a : forall i c, Forall (fun x => (x <= s_t s)%Q) (stamps (s_a s) i c);
  tm_d : forall i c, Forall (fun x => (x <= s_t s)%Q) (stamps (s_d s) i c);
  tm_wait : forall i c, visits_ordered (stamps (s_q s) i c) (stamps (s_a s) i c);
  tm_service : forall i c, visits_ordered (stamps (s_a s) i c) (stamps (s_d s) i c)
}.

(** Draws and rates that make durations non-negative. *)
Definition forward_in_time (lambda_arrival_time : Q) (mu_wait_time : list Q)
  (O : Oracle) : Prop :=
  (0 < lambda_arrival_time)%Q /\
  Forall (fun mu => (0 < mu)%Q) mu_wait_time /\
  forall k, (0 <= exp_draw O k)%Q.

(** Client [c] is on its way to station [j]. *)
Definition entering (j c : nat) (x : Event) : bool :=
  match ev_kind x with
  | ASIGNED => (ev_station x =? j) && (ev_client x =? c)
  | _ => false
  end.

(** Every departure from a station but the last is an entry, made or
    pending, into the next one. *)
Definition relayed (N : nat) (s : State) : Prop :=
  forall i c, S i < N ->
    count_ev (entering (S i) c) (s_events s) + length (stamps (s_q s) (S i) c)
    = length (stamps (s_d s) i c).

(** ** The reducer, client by client *)

Section reducer_view.
Variables (t : Q) (n : Z) (n_a n_d : nat).
Variables (q a d : list (gmap nat (list Q))).

(** Client [c] has a queue entry at station [s]. *)
Definition seen (s c : nat) : bool := negb (length (stamps q s c) =? 0).

(** Client [c] has a queue entry, a service start and a departure at
    station [s]. *)
Definition served (s c : nat) : bool :=
  seen s c && negb (length (stamps a s c) =? 0)
  && negb (length (stamps d s c) =? 0).

(** The wait the reducer records for a client seen at station [s]. *)
Definition wait_of (s c : nat) : Q :=
  if length (stamps a s c) =? 0
  then (t - default 0 (head (stamps q s c)))%Q
  else visit_mean (stamps q s c) (stamps a s c) (length (stamps a s c)).

Definition use_of (s c : nat) : Q :=
  visit_mean (stamps a s c) (stamps d s c) (length (stamps a s c)).

(** What station [s] does to the entry of client [c] in [system_time]. *)
Definition system_time_step (s c : nat) (x : Q) : Q :=
  if served s c then
    let x := if (s =? 0) && (c <? n_d)
             then (x - default 0 (head (stamps q s c)))%Q else x in
    if (Z.of_nat s =? n - 1)%Z && (c <? n_d)
    then (x + default 0 (last (stamps d s c)))%Q else x
  else x.

Definition waits (s : nat) : list Q :=
  map (wait_of s) (List.filter (seen s) (seq 0 n_a)).

Definition uses (s : nat) : list Q :=
  map (use_of s) (List.filter (served s) (seq 0 n_a)).
End reducer_view.

(** The first arrival has entered station 0, or is the only pending event. *)
Definition first_entered (first : Q) (s : State) : Prop :=
  (s_n_a s = 0 /\ s_events s = [(first, (ASIGNED, 0, 0))]) \/
  (1 <= s_n_a s /\ head (stamps (s_q s) 0 0) = Some first).

Definition is_assigned (x : Event) : bool :=
  match ev_kind x with
  | ASIGNED => true
  | _ => false
  end.

(** ** [servers_regression.ipynb]: the generators and the earlier engine *)
Module regression.

Inductive error :=
  TypeError | ValueError | ZeroDivisionError | IndexError | OverflowError.

(** [Unfinished]: no result within the fuel given. *)
Inductive result (A : Type) :=
  | Ok (x : A)
  | Err (e : error)
  | Unfinished.
Arguments Ok {A} x.
Arguments Err {A} e.
Arguments Unfinished {A}.

#[global] Instance result_ret : MRet result := @Ok.
#[global] Instance result_bind : MBind result := fun A B f m =>
  match m with
  | Ok x => f x
  | Err e => Err e
  | Unfinished => Unfinished
  end.

(** [random.uniform()]: [uniform(a, b)] has two required parameters, and
  the call gives it none. *)
Definition uniform_without_arguments : result Q := Err TypeError.

(** [l[i]] on a list, for a non-negative index. *)
Definition item {A} (l : list A) (i : nat) : result A :=
  match l !! i with
  | Some x => Ok x
  | None => Err IndexError
  end.

Section generators.
(** [math.log(x, math.e)] on its domain. *)
Variable math_log : Q -> Q.
(** [math.exp]: a float, or [None] where the result is out of the range
  of floats and the call raises [OverflowError] (an argument above about
  709.78). A result too small for a float comes out as [0.0]. *)
Variable math_exp : Q -> option Q.
(** The product of two floats: the exact product rounded to a float, [0.0]
  when it is too small. *)
Variable float_mul : Q -> Q -> Q.

Definition generate_exponential (lambd : Q) : result Q :=
  u ← uniform_without_arguments;
  x ← (if Qle_bool (1 - u) 0 then Err ValueError else Ok (math_log (1 - u)));
  if Qeq_bool (- lambd) 0 then Err ZeroDivisionError else Ok (x / - lambd)%Q.

Definition generate_bernoulli (p : Q) : result nat :=
  u ← uniform_without_arguments;
  Ok (if Qlt_bool u p then 1 else 0).

(** The [while True] of [generate_poisson], from the values [k] and [p]
  have at the top of a pass; [rng] counts the draws made. The result is
  the value returned and the draw counter. *)
Fixpoint poisson_loop (O : Oracle) (L : Q) (fuel k : nat) (p : Q) (rng : nat)
  : result (nat * nat) :=
  match fuel with
  | 0 => Unfinished
  | S fuel =>
      let k := k + 1 in
      let p := float_mul p (random.uniform01 O rng) in
      let rng := S rng in
      if Qle_bool p L then Ok (k - 1, rng)
      else poisson_loop O L fuel k p rng
  end.

Definition generate_poisson (O : Oracle) (lambd : Q) (rng fuel : nat)
  : result (nat * nat) :=
  match math_exp (- lambd) with
  | None => Err OverflowError
  | Some L => poisson_loop O L fuel 0 1 rng
  end.

(** An entry of the event queue: [(t, e, c, i)], with the kind [e] given
  by its number. Tuples compare lexicographically. *)
Definition Entry : Type := Q * nat * nat * nat.

Definition entry_lt (x y : Entry) : bool :=
  let '(t1, e1, c1, i1) := x in
  let '(t2, e2, c2, i2) := y in
  if negb (Qeq_bool t1 t2) then Qlt_bool t1 t2
  else if negb (e1 =? e2) then e1 <? e2
  else if negb (c1 =? c2) then c1 <? c2
  else i1 <? i2.

Fixpoint put (x : Entry) (h : list Entry) : list Entry :=
  match h with
  | [] => [x]
  | y :: h' => if entry_lt x y then x :: h else y :: put x h'
  end.

(** The local variables of [simulation]. *)
Record Locals := mkLocals {
  t : Q;
  events : list Entry;
  n_a : nat;
  n_d : nat;
  a : list (gmap nat Q);
  d : list (gmap nat Q);
  queue : list (list nat)
}.

Section simulation.
Variable n : Z.
Variables lambda_arrival_time lambda_wait_time : Q.

(** One pass of [while(t < 864)]. *)
Definition pass (s : Locals) : result Locals :=
  gap ← generate_exponential lambda_arrival_time;
  match put ((t s + gap)%Q, 1, 0, 0) (events s) with
  | [] => Unfinished
  | (t, e, c, i) :: events =>
      if e =? 1 then
        queue_i ← item (queue s) i;
        let index := if negb (i =? 0) then c else n_a s in
        let events :=
          if length queue_i =? 0 then put (t, 2, index, i) events else events in
        let queue := <[i := queue_i ++ [index]]> (queue s) in
        let n_a := if i =? 0 then n_a s + 1 else n_a s in
        Ok (mkLocals t events n_a (n_d s) (a s) (d s) queue)
      else if e =? 2 then
        a_i ← item (a s) i;
        let a := <[i := <[c := t]> a_i]> (a s) in
        duration ← generate_exponential lambda_wait_time;
        let events := put ((t + duration)%Q, 3, c, i) events in
        Ok (mkLocals t events (n_a s) (n_d s) a (d s) (queue s))
      else if e =? 3 then
        queue_i ← item (queue s) i;
        let queue_i := if 0 <? length queue_i then tail queue_i else queue_i in
        let queue := <[i := queue_i]> (queue s) in
        let events :=
          match queue_i with
          | [] => events
          | c' :: _ => put (t, 2, c', i) events
          end in
        d_i ← item (d s) i;
        let d := <[i := <[c := t]> d_i]> (d s) in
        if (Z.of_nat i =? n - 1)%Z then
          Ok (mkLocals t events (n_a s) (n_d s + 1) (a s) d queue)
        else
          let events := put (t, 1, c, i + 1) events in
          Ok (mkLocals t events (n_a s) (n_d s) (a s) d queue)
      else Ok (mkLocals t events (n_a s) (n_d s) (a s) (d s) (queue s))
  end.

Fixpoint while_loop (fuel : nat) (s : Locals) : result Locals :=
  match fuel with
  | 0 => Unfinished
  | S fuel =>
      if Qlt_bool (t s) 864 then s' ← pass s; while_loop fuel s'
      else Ok s
  end.

(** [simulation] returns [None]. *)
Definition simulation (fuel : nat) : result unit :=
  let s := mkLocals 0 [] 0 0 (replicate (Z.to_nat n) ∅)
             (replicate (Z.to_nat n) ∅) (replicate (Z.to_nat n) []) in
  _ ← while_loop fuel s;
  Ok tt.

End simulation.
End generators.
End regression.

(** The product [generate_poisson] has in [p] after [j] draws, each
  multiplication rounded as the floats round it. *)
Definition product_of_draws (float_mul : Q -> Q -> Q) (O : Oracle)
  (rng j : nat) : Q :=
  foldl (fun p k => float_mul p (unif_draw O k)) 1%Q (seq rng j).


(** * Properties *)

(** ** Bookkeeping lemmas *)

Lemma count_ev_put f x h :
  count_ev f (pq.put x h) = (if f x then 1 else 0) + count_ev f h.
Proof.
  induction h as [|y h IH]; simpl; [done|].
  destruct (event_lt x y); simpl; [done|]. rewrite IH. lia.
Qed.

Lemma Forall_put (P : Event -> Prop) x h :
  Forall P (pq.put x h) <-> P x /\ Forall P h.
Proof.
  induction h as [|y h IH]; simpl.
  - rewrite Forall_singleton. split; [intros ?; split; [done|constructor] | tauto].
  - destruct (event_lt x y).
    + apply Forall_cons.
    + rewrite !Forall_cons, IH. tauto.
Qed.

Lemma getitem_Ret {A} (l : list A) i x : getitem l i = Ret x <-> l !! i = Some x.
Proof. unfold getitem. destruct (l !! i); split; congruence. Qed.

Lemma bind_Ret {A B} (m : outcome A) (f : A -> outcome B) y :
  m ≫= f = Ret y <-> exists x, m = Ret x /\ f x = Ret y.
Proof.
  destruct m as [x|e|]; simpl; split.
  - intros H. by exists x.
  - by intros (x' & [= <-] & H).
  - done.
  - by intros (x' & [=] & _).
  - done.
  - by intros (x' & [=] & _).
Qed.

Lemma stamps_insert (m : list (gmap nat (list Q))) i c t m_i i' c' :
  m !! i = Some m_i ->
  stamps (<[i := <[c := stamped m_i c t]> m_i]> m) i' c'
  = if decide (i' = i /\ c' = c) then stamps m i c ++ [t] else stamps m i' c'.
Proof.
  intros Hi. unfold stamps.
  assert (Hlt : i < length m) by (by eapply lookup_lt_Some).
  assert (Hm : m !!! i = m_i) by (by apply list_lookup_total_correct).
  destruct (decide (i' = i)) as [->|Hne].
  - rewrite list_lookup_total_insert_eq by done.
    destruct (decide (c' = c)) as [->|Hc].
    + rewrite lookup_insert_eq, decide_True by done. simpl. unfold stamped. by rewrite Hm.
    + rewrite lookup_insert_ne by done. rewrite decide_False by tauto. by rewrite Hm.
  - rewrite list_lookup_total_insert_ne by done. by rewrite decide_False by tauto.
Qed.

Lemma sum_lengths_insert (l : list (list nat)) i x y :
  l !! i = Some x ->
  sum_list_with length (<[i := y]> l) + length x = sum_list_with length l + length y.
Proof.
  revert i. induction l as [|z l IH]; intros [|i]; simpl; try done.
  - intros [= ->]. lia.
  - intros Hi. specialize (IH _ Hi). lia.
Qed.

Lemma occ_snoc c l x : occ c (l ++ [x]) = occ c l + (if decide (x = c) then 1 else 0).
Proof.
  unfold occ. rewrite count_occ_app. simpl.
  destruct (Nat.eq_dec x c), (decide (x = c)); done.
Qed.

Lemma occ_cons c l x : occ c (x :: l) = (if decide (x = c) then 1 else 0) + occ c l.
Proof.
  unfold occ. simpl. destruct (Nat.eq_dec x c), (decide (x = c)); done.
Qed.

Ltac proj_simpl :=
  cbn [s_t s_events s_n_a s_n_d s_a s_q s_d s_queue s_rng].

Ltac ev_simpl :=
  unfold serving, finishing, in_transit, ev_kind, ev_station, ev_client; simpl.

(** ** The invariant is kept by every pass *)

Section preservation.
Variables (time : Q) (n : Z) (lambda_arrival_time : Q).
Variables (mu_wait_time p : list Q) (O : Oracle).
Hypothesis Hn : (1 <= n)%Z.

Lemma assigned_invariant s s' t c i rest :
  invariant (Z.to_nat n) s ->
  s_events s = (t, (ASIGNED, c, i)) :: rest ->
  loop_body time n lambda_arrival_time mu_wait_time p O s = Ret s' ->
  invariant (Z.to_nat n) s'.
Proof.
  intros [Lq La Ld Lqu St Sv Hd Qe Ss Ct] He H.
  unfold loop_body in H. rewrite He in H. simpl in H.
  apply bind_Ret in H as (q_i & Hq%getitem_Ret & H).
  apply bind_Ret in H as (queue_i & Hqueue%getitem_Ret & H).
  rewrite He in *.
  apply Forall_cons in St as [Hi St]. apply Forall_cons in Hd as [_ Hd].
  unfold ev_station in Hi; simpl in Hi.
  set (index := if negb (i =? 0) then c else s_n_a s) in *.
  set (events1 := if length queue_i =? 0
                  then pq.put (t, (ARRIVAL, index, i)) rest else rest) in *.
  set (queue1 := <[i:=queue_i ++ [index]]> (s_queue s)) in *.
  set (q1 := <[i:=<[index:=stamped q_i index t]> q_i]> (s_q s)) in *.
  assert (Hqt : s_queue s !!! i = queue_i) by (by apply list_lookup_total_correct).
  assert (E1 : Forall (fun x => ev_station x < Z.to_nat n) events1).
  { subst events1. destruct (length queue_i =? 0); [apply Forall_put; split|]; done. }
  assert (E2 : forall j, count_ev (serving j) events1 = busy (queue1 !!! j)).
  { intros j. specialize (Sv j). revert Sv. ev_simpl. intros Sv.
    subst events1 queue1. destruct (decide (j = i)) as [->|Hne].
    - rewrite list_lookup_total_insert_eq by lia. rewrite Hqt in Sv.
      destruct queue_i; simpl in *.
      + rewrite count_ev_put. ev_simpl. rewrite Nat.eqb_refl. lia.
      + done.
    - rewrite list_lookup_total_insert_ne by done. rewrite <- Sv.
      destruct (length queue_i =? 0); [|done]. rewrite count_ev_put. ev_simpl.
      destruct (i =? j) eqn:E; [apply Nat.eqb_eq in E; congruence|done]. }
  assert (E3 : Forall (fun x => ev_kind x <> ASIGNED ->
                 head (queue1 !!! ev_station x) = Some (ev_client x)) events1).
  { assert (R : Forall (fun x => ev_kind x <> ASIGNED ->
                 head (queue1 !!! ev_station x) = Some (ev_client x)) rest).
    { rewrite Forall_forall in Hd |- *. intros x Hx Hk. specialize (Hd x Hx Hk).
      subst queue1. destruct (decide (ev_station x = i)) as [Hxi|Hxi].
      - rewrite Hxi in *. rewrite list_lookup_total_insert_eq by lia.
        rewrite Hqt in Hd. destruct queue_i; simpl in *; done.
      - by rewrite list_lookup_total_insert_ne. }
    subst events1. destruct (length queue_i =? 0) eqn:El; [|done]. apply Forall_put. split; [|done].
    intros _. ev_simpl. subst queue1.
    rewrite list_lookup_total_insert_eq by lia. destruct queue_i; simpl in *; done. }
  assert (E4 : forall j c', count_ev (finishing j c') events1
                            = count_ev (finishing j c') rest).
  { intros j c'. subst events1. destruct (length queue_i =? 0); [|done]. by rewrite count_ev_put. }
  assert (E5 : count_ev in_transit events1 = count_ev in_transit rest).
  { subst events1. destruct (length queue_i =? 0); [|done]. by rewrite count_ev_put. }
  assert (Q1 : forall j c', length (stamps q1 j c')
               = length (stamps (s_d s) j c') + occ c' (queue1 !!! j)).
  { intros j c'. subst q1 queue1. rewrite stamps_insert by done.
    destruct (decide (j = i)) as [->|Hne].
    - rewrite list_lookup_total_insert_eq by lia. rewrite occ_snoc.
      specialize (Qe i c'). rewrite Hqt in Qe.
      destruct (decide (c' = index)) as [->|Hc].
      + rewrite decide_True by done. rewrite length_app, decide_True by done.
        simpl. lia.
      + rewrite decide_False by tauto. rewrite decide_False by done. rewrite Qe. lia.
    - rewrite decide_False by tauto. rewrite list_lookup_total_insert_ne by done.
      apply Qe. }
  assert (C1 : sum_list_with length queue1 = S (sum_list_with length (s_queue s))).
  { subst queue1. pose proof (sum_lengths_insert _ _ _ (queue_i ++ [index]) Hqueue) as X.
    rewrite length_app in X. simpl in X. lia. }
  assert (S1 : forall j c', length (stamps (s_a s) j c')
               = length (stamps (s_d s) j c') + count_ev (finishing j c') events1).
  { intros j c'. rewrite E4. apply Ss. }
  assert (L1 : length q1 = Z.to_nat n) by (subst q1; by rewrite length_insert).
  assert (L2 : length queue1 = Z.to_nat n) by (subst queue1; by rewrite length_insert).
  assert (Ct' : s_n_d s + sum_list_with length (s_queue s)
                + ((if negb (i =? 0) then 1 else 0) + count_ev in_transit rest)
                <= s_n_a s) by exact Ct.
  clear Ct.
  destruct (i =? 0) eqn:Hi0.
  - apply Nat.eqb_eq in Hi0. subst i.
    apply bind_Ret in H as (t_next_a & _ & [= <-]).
    split; proj_simpl; try done.
    + destruct (Qlt_bool _ _); [apply Forall_put; split; [ev_simpl; lia|]|]; done.
    + intros j. rewrite <- E2. destruct (Qlt_bool _ _); [|done]. by rewrite count_ev_put.
    + destruct (Qlt_bool _ _); [apply Forall_put; split; [done|]|]; done.
    + intros j c'. rewrite S1. destruct (Qlt_bool _ _); [|done]. by rewrite count_ev_put.
    + rewrite C1. simpl in Ct'.
      assert (count_ev in_transit
                (if Qlt_bool (t + t_next_a) time
                 then pq.put ((t + t_next_a)%Q, (ASIGNED, 0, 0)) events1
                 else events1) = count_ev in_transit rest) as ->; [|lia].
      rewrite <- E5. destruct (Qlt_bool _ _); [|done]. by rewrite count_ev_put.
  - injection H as <-. apply Nat.eqb_neq in Hi0.
    split; proj_simpl; try done.
    rewrite C1, E5. destruct (i =? 0) eqn:E; [apply Nat.eqb_eq in E; done|].
    simpl in Ct'. lia.
Qed.

Lemma arrival_invariant s s' t c i rest :
  invariant (Z.to_nat n) s ->
  s_events s = (t, (ARRIVAL, c, i)) :: rest ->
  loop_body time n lambda_arrival_time mu_wait_time p O s = Ret s' ->
  invariant (Z.to_nat n) s'.
Proof.
  intros [Lq La Ld Lqu St Sv Hd Qe Ss Ct] He H.
  unfold loop_body in H. rewrite He in H. simpl in H.
  apply bind_Ret in H as (a_i & Ha%getitem_Ret & H).
  apply bind_Ret in H as (mu & _ & H).
  apply bind_Ret in H as (duration & _ & [= <-]).
  rewrite He in *.
  apply Forall_cons in St as [Hi St]. apply Forall_cons in Hd as [Hc Hd].
  split; proj_simpl; try done.
  - by rewrite length_insert.
  - apply Forall_put. by split.
  - intros j. rewrite count_ev_put. exact (Sv j).
  - apply Forall_put. split; [|done]. intros _. by apply Hc.
  - intros j c'. rewrite stamps_insert by done. rewrite count_ev_put.
    specialize (Ss j c').
    change (count_ev (finishing j c') ((t, (ARRIVAL, c, i)) :: rest))
      with (0 + count_ev (finishing j c') rest) in Ss.
    change (finishing j c' ((t + duration)%Q, (FINISH, c, i)))
      with ((i =? j) && (c =? c')).
    destruct (decide (j = i /\ c' = c)) as [[-> ->]|Hne].
    + rewrite !Nat.eqb_refl, length_app. simpl. lia.
    + destruct (i =? j) eqn:E1; [destruct (c =? c') eqn:E2|]; simpl; try lia.
      apply Nat.eqb_eq in E1, E2. subst. tauto.
  - rewrite count_ev_put. exact Ct.
Qed.

Lemma count_ev_none f h x : count_ev f h = 0 -> x ∈ h -> f x = false.
Proof.
  induction h as [|y h IH]; simpl; [by intros _ ?%elem_of_nil|].
  intros Hc [->|Hx]%elem_of_cons.
  - destruct (f y); [lia|done].
  - apply IH; [lia|done].
Qed.

Lemma choice_seq_lt i k j : random.choice O (seq 0 i) k = Ret j -> j < i.
Proof.
  unfold random.choice. intros H%getitem_Ret. apply lookup_seq in H. lia.
Qed.

Lemma finish_invariant s s' t c i rest :
  invariant (Z.to_nat n) s ->
  s_events s = (t, (FINISH, c, i)) :: rest ->
  loop_body time n lambda_arrival_time mu_wait_time p O s = Ret s' ->
  invariant (Z.to_nat n) s'.
Proof.
  intros [Lq La Ld Lqu St Sv Hd Qe Ss Ct] He H.
  unfold loop_body in H. rewrite He in H. simpl in H.
  apply bind_Ret in H as (queue_i & Hqueue%getitem_Ret & H).
  apply bind_Ret in H as (d_i & Hdi%getitem_Ret & H).
  rewrite He in *.
  apply Forall_cons in St as [Hi St]. apply Forall_cons in Hd as [Hc Hd].
  unfold ev_station in Hi; simpl in Hi.
  assert (Hqt : s_queue s !!! i = queue_i) by (by apply list_lookup_total_correct).
  assert (Svi : S (count_ev (serving i) rest) = busy queue_i).
  { rewrite <- Hqt, <- (Sv i). simpl. unfold serving at 1. ev_simpl.
    by rewrite Nat.eqb_refl. }
  specialize (Hc ltac:(done)). unfold ev_station, ev_client in Hc; simpl in Hc.
  rewrite Hqt in Hc.
  destruct queue_i as [|c0 tl]; [done|]. simpl in Hc, Svi. injection Hc as ->.
  assert (E0 : count_ev (serving i) rest = 0) by lia. clear Svi.
  simpl in H.
  set (events1 := match tl with
                  | [] => _
                  | _ :: _ => _
                  end) in *.
  set (queue1 := <[i:=tl]> (s_queue s)) in *.
  set (d1 := <[i:=<[c:=stamped d_i c t]> d_i]> (s_d s)) in *.
  assert (E1 : Forall (fun x => ev_station x < Z.to_nat n) events1).
  { subst events1. destruct tl; [done|]. apply Forall_put. by split. }
  assert (E2 : forall j, count_ev (serving j) events1 = busy (queue1 !!! j)).
  { intros j. subst events1 queue1. destruct (decide (j = i)) as [->|Hne].
    - rewrite list_lookup_total_insert_eq by lia. destruct tl; [done|].
      rewrite count_ev_put, E0. ev_simpl. by rewrite Nat.eqb_refl.
    - rewrite list_lookup_total_insert_ne by done. rewrite <- (Sv j).
      assert (serving j (t, (FINISH, c, i)) = false) as Hf.
      { ev_simpl. apply Nat.eqb_neq. congruence. }
      simpl. rewrite Hf. destruct tl; [done|]. rewrite count_ev_put.
      assert (serving j (t, (ARRIVAL, n0, i)) = false) as ->; [|done].
      ev_simpl. apply Nat.eqb_neq. congruence. }
  assert (E3 : Forall (fun x => ev_kind x <> ASIGNED ->
                 head (queue1 !!! ev_station x) = Some (ev_client x)) events1).
  { assert (R : Forall (fun x => ev_kind x <> ASIGNED ->
                 head (queue1 !!! ev_station x) = Some (ev_client x)) rest).
    { rewrite Forall_forall in Hd |- *. intros x Hx Hk. specialize (Hd x Hx Hk).
      pose proof (count_ev_none _ _ _ E0 Hx) as Hs.
      subst queue1. rewrite list_lookup_total_insert_ne; [done|].
      intros Heq. unfold serving in Hs. rewrite <- Heq, Nat.eqb_refl in Hs.
      by destruct (ev_kind x). }
    subst events1. destruct tl as [|c' tl']; [done|]. apply Forall_put.
    split; [|done]. intros _. ev_simpl. subst queue1.
    by rewrite list_lookup_total_insert_eq by lia. }
  assert (E4 : forall j c', count_ev (finishing j c') events1
                            = count_ev (finishing j c') rest).
  { intros j c'. subst events1. destruct tl; [done|]. by rewrite count_ev_put. }
  assert (E5 : count_ev in_transit events1 = count_ev in_transit rest).
  { subst events1. destruct tl; [done|]. by rewrite count_ev_put. }
  assert (D1 : forall j c', length (stamps (s_q s) j c')
               = length (stamps d1 j c') + occ c' (queue1 !!! j)).
  { intros j c'. subst d1 queue1. rewrite stamps_insert by done.
    specialize (Qe j c'). destruct (decide (j = i)) as [->|Hne].
    - rewrite list_lookup_total_insert_eq by lia. rewrite Hqt, occ_cons in Qe.
      destruct (decide (c' = c)) as [->|Hcc].
      + rewrite decide_True in Qe by done. rewrite decide_True by done.
        rewrite length_app. simpl. lia.
      + rewrite decide_False in Qe by congruence. rewrite decide_False by tauto. lia.
    - rewrite decide_False by tauto. by rewrite list_lookup_total_insert_ne. }
  assert (S1 : forall j c', length (stamps (s_a s) j c')
               = length (stamps d1 j c') + count_ev (finishing j c') events1).
  { intros j c'. rewrite E4. subst d1. rewrite stamps_insert by done.
    specialize (Ss j c').
    change (count_ev (finishing j c') ((t, (FINISH, c, i)) :: rest))
      with ((if (i =? j) && (c =? c') then 1 else 0)
            + count_ev (finishing j c') rest) in Ss.
    destruct (decide (j = i /\ c' = c)) as [[-> ->]|Hne].
    - rewrite !Nat.eqb_refl in Ss. rewrite length_app. simpl in *. lia.
    - destruct (i =? j) eqn:X1; [destruct (c =? c') eqn:X2|]; simpl in Ss; try lia.
      apply Nat.eqb_eq in X1, X2. subst. tauto. }
  assert (C1 : S (sum_list_with length queue1) = sum_list_with length (s_queue s)).
  { subst queue1. pose proof (sum_lengths_insert _ _ _ tl Hqueue) as X.
    simpl in X. lia. }
  assert (Ct' : s_n_d s + sum_list_with length (s_queue s)
                + (0 + count_ev in_transit rest) <= s_n_a s) by exact Ct.
  clear Ct.
  assert (L1 : length d1 = Z.to_nat n) by (subst d1; by rewrite length_insert).
  assert (L2 : length queue1 = Z.to_nat n) by (subst queue1; by rewrite length_insert).
  destruct (Z.of_nat i =? n - 1)%Z eqn:Hlast.
  - injection H as <-. split; proj_simpl; try done. rewrite E5. lia.
  - apply Z.eqb_neq in Hlast.
    apply bind_Ret in H as ([next_server rng] & Hnext & [= <-]).
    assert (Hns : next_server < Z.to_nat n).
    { destruct (i =? 0).
      - injection Hnext as <- <-. lia.
      - apply bind_Ret in Hnext as (p_i & _ & Hnext).
        destruct (Qlt_bool p_i _).
        + injection Hnext as <- <-. lia.
        + apply bind_Ret in Hnext as (j & Hj%choice_seq_lt & [= <- <-]). lia. }
    split; proj_simpl; try done.
    + apply Forall_put. by split.
    + intros j. rewrite count_ev_put. apply E2.
    + apply Forall_put. by split.
    + intros j c'. rewrite count_ev_put. apply S1.
    + rewrite count_ev_put, E5.
      assert ((if in_transit (t, (ASIGNED, c, next_server)) then 1 else 0) <= 1)
        by (destruct (in_transit _); lia).
      lia.
Qed.

Lemma loop_body_invariant s s' :
  invariant (Z.to_nat n) s ->
  loop_body time n lambda_arrival_time mu_wait_time p O s = Ret s' ->
  invariant (Z.to_nat n) s'.
Proof.
  intros Hinv H.
  destruct (s_events s) as [|[t [[[] c] i]] rest] eqn:He.
  - unfold loop_body in H. by rewrite He in H.
  - by eapply assigned_invariant.
  - by eapply arrival_invariant.
  - by eapply finish_invariant.
Qed.

End preservation.

(** ** States of a run *)

Section reach.
Variables (time : Q) (n : Z) (lambda_arrival_time : Q).
Variables (mu_wait_time p : list Q) (finish : bool).
Variable O : Oracle.

Lemma lookup_total_replicate_any {A} `{!Inhabited A} (k i : nat) :
  replicate k (inhabitant : A) !!! i = inhabitant.
Proof.
  rewrite list_lookup_total_alt.
  destruct (replicate k inhabitant !! i) as [x|] eqn:E; [|done].
  by apply lookup_replicate_1 in E as [-> _].
Qed.

Lemma queue_replicate (k i : nat) : replicate k ([] : list nat) !!! i = [].
Proof. exact (lookup_total_replicate_any k i). Qed.

Lemma slots_replicate (k i : nat) :
  replicate k (∅ : gmap nat (list Q)) !!! i = ∅.
Proof. exact (lookup_total_replicate_any k i). Qed.

Lemma sum_lengths_replicate (k : nat) :
  sum_list_with length (replicate k ([] : list nat)) = 0.
Proof. induction k; simpl; lia. Qed.

Lemma initial_invariant s :
  (1 <= n)%Z ->
  initial_state n lambda_arrival_time O = Ret s ->
  invariant (Z.to_nat n) s.
Proof.
  intros Hn H. unfold initial_state in H.
  apply bind_Ret in H as (first & _ & [= <-]).
  split; proj_simpl; try by rewrite length_replicate.
  - apply Forall_singleton. ev_simpl. lia.
  - intros i. by rewrite queue_replicate.
  - by apply Forall_singleton.
  - intros i c. unfold stamps. by rewrite slots_replicate, queue_replicate.
  - intros i c. unfold stamps. by rewrite slots_replicate.
  - rewrite sum_lengths_replicate. simpl. lia.
Qed.

Lemma passes_invariant k s s' :
  (1 <= n)%Z ->
  invariant (Z.to_nat n) s ->
  passes time n lambda_arrival_time mu_wait_time p finish O k s = Ret s' ->
  invariant (Z.to_nat n) s'.
Proof.
  intros Hn. revert s. induction k as [|k IH]; simpl; intros s Hinv H.
  - by injection H as <-.
  - destruct (loop_guard time finish s); [|by injection H as <-].
    apply bind_Ret in H as (s1 & H1 & H). eapply IH; [|done].
    by eapply loop_body_invariant.
Qed.

Lemma snapshot_invariant k s :
  (1 <= n)%Z ->
  snapshot time n lambda_arrival_time mu_wait_time p finish O k = Ret s ->
  invariant (Z.to_nat n) s.
Proof.
  intros Hn H. apply bind_Ret in H as (s0 & H0 & H).
  eapply passes_invariant; [done| |done]. by eapply initial_invariant.
Qed.

Lemma initial_stillborn s :
  (n < 1)%Z -> initial_state n lambda_arrival_time O = Ret s -> stillborn s.
Proof.
  intros Hn H. unfold initial_state in H.
  apply bind_Ret in H as (first & _ & [= <-]).
  replace (Z.to_nat n) with 0 by lia. unfold stillborn. simpl. eauto 10.
Qed.

Lemma stillborn_raises s :
  stillborn s ->
  loop_body time n lambda_arrival_time mu_wait_time p O s = Raise IndexError.
Proof.
  intros (Hq & _ & _ & _ & _ & _ & t & He). unfold loop_body.
  by rewrite He, Hq.
Qed.

Lemma passes_stillborn k s s' :
  stillborn s ->
  passes time n lambda_arrival_time mu_wait_time p finish O k s = Ret s' ->
  s' = s.
Proof.
  intros Hs. destruct k as [|k]; simpl; [congruence|].
  destruct (loop_guard time finish s); [|congruence].
  by rewrite stillborn_raises.
Qed.

Lemma snapshot_stillborn k s :
  (n < 1)%Z ->
  snapshot time n lambda_arrival_time mu_wait_time p finish O k = Ret s ->
  stillborn s.
Proof.
  intros Hn H. apply bind_Ret in H as (s0 & H0 & H).
  apply initial_stillborn in H0; [|done].
  by rewrite (passes_stillborn _ _ _ H0 H).
Qed.

Lemma while_loop_passes fuel s s' :
  while_loop time n lambda_arrival_time mu_wait_time p finish O fuel s = Ret s' ->
  passes time n lambda_arrival_time mu_wait_time p finish O fuel s = Ret s'.
Proof.
  revert s. induction fuel as [|fuel IH]; simpl; intros s H.
  - by destruct (loop_guard time finish s).
  - destruct (loop_guard time finish s); [|done].
    apply bind_Ret in H as (s1 & H1 & H). rewrite H1. simpl. by apply IH.
Qed.

Lemma servers_simulation_snapshot fuel s :
  servers_simulation time n lambda_arrival_time mu_wait_time p finish O fuel = Ret s ->
  snapshot time n lambda_arrival_time mu_wait_time p finish O fuel = Ret s.
Proof.
  intros H. apply bind_Ret in H as (s0 & H0 & H). unfold snapshot.
  rewrite H0. simpl. by apply while_loop_passes.
Qed.

Lemma finishing_le_occ s i c :
  invariant (Z.to_nat n) s ->
  count_ev (finishing i c) (s_events s) <= occ c (s_queue s !!! i).
Proof.
  intros [_ _ _ _ _ Sv Hd _ _ _]. specialize (Sv i).
  assert (G : forall h,
    Forall (fun x => ev_kind x <> ASIGNED ->
              head (s_queue s !!! ev_station x) = Some (ev_client x)) h ->
    count_ev (finishing i c) h <= count_ev (serving i) h /\
    (0 < count_ev (finishing i c) h -> 0 < occ c (s_queue s !!! i))).
  { induction 1 as [|[t [[k c'] j]] h Hx _ [IH1 IH2]]; simpl; [lia|].
    unfold finishing at 1 3, serving at 1, ev_kind, ev_station, ev_client; simpl.
    unfold ev_kind, ev_station, ev_client in Hx; simpl in Hx.
    destruct k; simpl; try (split; [lia|done]).
    destruct (j =? i) eqn:Ej; simpl; [|split; [lia|done]].
    destruct (c' =? c) eqn:Ec; simpl; [|split; [lia|done]].
    apply Nat.eqb_eq in Ej, Ec. subst. split; [lia|]. intros _.
    specialize (Hx ltac:(done)). destruct (s_queue s !!! i); [done|].
    injection Hx as ->. rewrite occ_cons, decide_True by done. lia. }
  destruct (G _ Hd) as [G1 G2].
  assert (busy (s_queue s !!! i) <= 1) by (destruct (s_queue s !!! i); simpl; lia).
  lia.
Qed.
End reach.

(** ** The trace and the station queues *)

Section trace.
Variables (time : Q) (n : Z) (lambda_arrival_time : Q).
Variables (mu_wait_time p : list Q) (finish : bool).
Variable O : Oracle.

Lemma stamps_nil i c : stamps [] i c = [].
Proof. done. Qed.

(** C6: after any number [k] of passes of the loop (the final state
    included: once the loop has stopped, further passes change nothing),
    and for every station [i] and client [c], the departure list is no
    longer than the service-start list, which is no longer than the
    queue-entry list. A pass appends to one list only, so the states
    between passes cover every point of the run. *)
Theorem trace_lengths_ordered k s i c :
  snapshot time n lambda_arrival_time mu_wait_time p finish O k = Ret s ->
  length (stamps (s_d s) i c) <= length (stamps (s_a s) i c) /\
  length (stamps (s_a s) i c) <= length (stamps (s_q s) i c).
Proof.
  intros H. destruct (Z_lt_le_dec n 1) as [Hn|Hn].
  - apply snapshot_stillborn in H as (-> & -> & -> & _); [|done].
    rewrite stamps_nil. simpl. lia.
  - apply snapshot_invariant in H; [|done].
    pose proof (finishing_le_occ n s i c H) as F.
    destruct H as [_ _ _ _ _ _ _ Qe Ss _].
    specialize (Qe i c). specialize (Ss i c). lia.
Qed.

(** C10: whenever the next event to dispatch is [FINISH] of client [c] at
    station [i], the queue of station [i] is not empty and [c] is at its
    head; the pass that dispatches the event leaves the rest of the queue. *)
Theorem finish_pops_its_client k s t c i rest :
  snapshot time n lambda_arrival_time mu_wait_time p finish O k = Ret s ->
  pq.get (s_events s) = Some ((t, (FINISH, c, i)), rest) ->
  exists tl, s_queue s !! i = Some (c :: tl) /\
    forall s', loop_body time n lambda_arrival_time mu_wait_time p O s = Ret s' ->
               s_queue s' !! i = Some tl.
Proof.
  intros H Hget. destruct (Z_lt_le_dec n 1) as [Hn|Hn].
  - apply snapshot_stillborn in H as (_ & _ & _ & _ & _ & _ & t0 & He); [|done].
    by rewrite He in Hget.
  - apply snapshot_invariant in H as [_ _ _ Lqu St Sv Hd _ _ _]; [|done].
    destruct (s_events s) as [|x h] eqn:He; [done|].
    injection Hget as -> ->.
    apply Forall_cons in St as [Hi _]. apply Forall_cons in Hd as [Hc _].
    unfold ev_station in Hi; simpl in Hi.
    destruct (lookup_lt_is_Some_2 (s_queue s) i) as [queue_i Hq]; [lia|].
    assert (Hqt : s_queue s !!! i = queue_i) by (by apply list_lookup_total_correct).
    specialize (Hc ltac:(done)). unfold ev_station, ev_client in Hc; simpl in Hc.
    rewrite Hqt in Hc. destruct queue_i as [|c0 tl]; [done|].
    injection Hc as ->. exists tl. split; [done|].
    intros s' Hs'. unfold loop_body in Hs'. rewrite He in Hs'. simpl in Hs'.
    apply bind_Ret in Hs' as (qi & Hqi%getitem_Ret & Hs').
    rewrite Hq in Hqi. injection Hqi as <-. simpl in Hs'.
    apply bind_Ret in Hs' as (d_i & _ & Hs').
    destruct (Z.of_nat i =? n - 1)%Z.
    + injection Hs' as <-. simpl. apply list_lookup_insert_eq. lia.
    + apply bind_Ret in Hs' as ([ns rng] & _ & [= <-]). simpl.
      apply list_lookup_insert_eq. lia.
Qed.

(** Departures never exceed arrivals. *)
Lemma departures_le_arrivals k s :
  snapshot time n lambda_arrival_time mu_wait_time p finish O k = Ret s ->
  s_n_d s <= s_n_a s.
Proof.
  intros H. destruct (Z_lt_le_dec n 1) as [Hn|Hn].
  - apply snapshot_stillborn in H as (_ & _ & _ & _ & -> & -> & _); done.
  - apply snapshot_invariant in H as [_ _ _ _ _ _ _ _ _ Ct]; [|done]. lia.
Qed.
End trace.

(** ** The order of the event queue *)

Lemma Qlt_bool_iff x y : Qlt_bool x y = true <-> (x < y)%Q.
Proof.
  unfold Qlt_bool. rewrite Qlt_alt. destruct (x ?= y)%Q; split; congruence.
Qed.

Lemma payload_lt_iff x y : payload_lt x y = true <-> payload_before x y.
Proof.
  destruct x as [[e1 c1] i1], y as [[e2 c2] i2].
  unfold payload_lt, payload_before, EventType_eqb, EventType_lt. simpl.
  destruct (value e1 =? value e2) eqn:E; simpl.
  - apply Nat.eqb_eq in E. destruct (c1 =? c2) eqn:C; simpl.
    + apply Nat.eqb_eq in C. rewrite Nat.ltb_lt. lia.
    + apply Nat.eqb_neq in C. rewrite Nat.ltb_lt. lia.
  - apply Nat.eqb_neq in E. rewrite Nat.ltb_lt. lia.
Qed.

Lemma event_lt_iff x y : event_lt x y = true <-> event_before x y.
Proof.
  unfold event_lt, event_before.
  destruct (Qeq_bool x.1 y.1) eqn:E; simpl.
  - apply Qeq_bool_iff in E. rewrite payload_lt_iff. split; [tauto|].
    intros [H|[_ H]]; [lra|done].
  - apply Qeq_bool_neq in E. rewrite Qlt_bool_iff. split; [tauto|].
    intros [H|[H _]]; [done|lra].
Qed.

Lemma event_before_trans x y z :
  event_before x y -> event_before y z -> event_before x z.
Proof.
  unfold event_before, payload_before.
  intros [H1|[H1 P1]] [H2|[H2 P2]]; [left; lra|left; lra|left; lra|].
  right. split; [lra|lia].
Qed.

Lemma event_before_asym x y : event_before x y -> ~ event_before y x.
Proof.
  unfold event_before, payload_before.
  intros [H1|[H1 P1]] [H2|[H2 P2]]; try lra. lia.
Qed.

Lemma put_ascending x h : ascending h -> ascending (pq.put x h).
Proof.
  unfold ascending. induction 1 as [|y h Hs IH Hy]; simpl.
  - repeat constructor.
  - destruct (event_lt x y) eqn:E.
    + constructor; [by constructor|]. apply event_lt_iff in E.
      constructor.
      * apply not_true_is_false. intros F%event_lt_iff.
        by eapply event_before_asym.
      * eapply Forall_impl; [exact Hy|]. intros z Hz. simpl in Hz.
        apply not_true_is_false. intros F%event_lt_iff.
        apply not_true_iff_false in Hz. apply Hz, event_lt_iff.
        by eapply event_before_trans.
    + constructor; [done|]. apply Forall_put. by split.
Qed.

Lemma pq_after_ascending ops : ascending (pq_after ops).
Proof.
  unfold pq_after. generalize (SSorted_nil (fun x y : Event => event_lt y x = false)).
  fold (ascending []). generalize ([] : list Event).
  induction ops as [|o ops IH]; simpl; intros h Hh; [done|].
  apply IH. destruct o as [x|]; simpl.
  - by apply put_ascending.
  - destruct h as [|y h]; simpl; [done|]. by apply StronglySorted_inv in Hh as [? _].
Qed.

(** C4 (as the code has it): on any queue obtained from the empty one by
    [put]s and [get]s, [get] hands out an event that no pending event
    precedes in the order of the tuples [(time, (kind, client, station))].
    Among pending events of the same time and kind, the one with the
    smaller client, then the smaller station, comes out first: the order
    of insertion plays no part. *)
Theorem get_least_tuple ops x h' :
  pq.get (pq_after ops) = Some (x, h') ->
  Forall (fun y => event_lt y x = false) h' /\
  Forall (fun y => y.1 == x.1 -> ev_kind y = ev_kind x ->
            ev_client x < ev_client y \/
            (ev_client x = ev_client y /\ ev_station x <= ev_station y)) h'.
Proof.
  intros H. pose proof (pq_after_ascending ops) as Hs.
  destruct (pq_after ops) as [|x0 h]; [done|]. injection H as -> ->.
  apply StronglySorted_inv in Hs as [_ Hx]. split; [done|].
  eapply Forall_impl; [exact Hx|]. intros y Hy Ht Hk. simpl in Hy.
  apply not_true_iff_false in Hy. rewrite event_lt_iff in Hy.
  unfold event_before, payload_before in Hy.
  unfold ev_kind in Hk. unfold ev_client, ev_station.
  assert (value y.2.1.1 = value x.2.1.1) by congruence.
  destruct (decide (ev_client x < ev_client y)); [by left|].
  unfold ev_client in *. right.
  destruct (decide (x.2.1.2 = y.2.1.2)); [split; [done|]|].
  - destruct (decide (x.2.2 <= y.2.2)); [done|]. exfalso. apply Hy. right.
    split; [done|]. lia.
  - exfalso. apply Hy. right. split; [done|]. lia.
Qed.

(** Two events of the same time and kind: the one put second comes out
    first, because its client number is smaller. *)
Lemma tie_not_fifo :
  let first := (5%Q, (ASIGNED, 3, 1)) in
  let second := (5%Q, (ASIGNED, 1, 2)) in
  pq.get (pq_after [Put first; Put second]) = Some (second, [first]).
Proof. reflexivity. Qed.

(** ** The horizon *)

Section horizon.
Variables (time : Q) (n : Z) (lambda_arrival_time : Q).
Variables (mu_wait_time p : list Q) (finish : bool).
Variable O : Oracle.

Lemma while_loop_exit fuel s s' :
  while_loop time n lambda_arrival_time mu_wait_time p finish O fuel s = Ret s' ->
  loop_guard time finish s' = false.
Proof.
  revert s. induction fuel as [|fuel IH]; simpl; intros s H.
  - destruct (loop_guard time finish s) eqn:G; [done|]. by injection H as <-.
  - destruct (loop_guard time finish s) eqn:G; [|by injection H as <-].
    apply bind_Ret in H as (s1 & _ & H). by eapply IH.
Qed.

End horizon.

(** ** Configurations *)

Section validation.
Variables (time : Q) (n : Z) (lambda_arrival_time : Q).
Variables (mu_wait_time p : list Q) (finish : bool).
Variable O : Oracle.

Lemma loop_body_progress s :
  (1 <= n)%Z ->
  (Z.to_nat n <= length mu_wait_time) ->
  (Z.to_nat n <= length p) ->
  Qeq_bool lambda_arrival_time 0 = false ->
  Forall (fun mu => Qeq_bool mu 0 = false) mu_wait_time ->
  invariant (Z.to_nat n) s ->
  pq.empty (s_events s) = false ->
  exists s', loop_body time n lambda_arrival_time mu_wait_time p O s = Ret s'.
Proof.
  intros Hn Hmu Hp Hl Hnz [Lq La Ld Lqu St _ _ _ _ _] He.
  destruct (s_events s) as [|[t [[k c] i]] rest] eqn:Hev; [done|].
  apply Forall_cons in St as [Hi _]. unfold ev_station in Hi; simpl in Hi.
  destruct (lookup_lt_is_Some_2 (s_q s) i) as [q_i Hq]; [lia|].
  destruct (lookup_lt_is_Some_2 (s_a s) i) as [a_i Ha]; [lia|].
  destruct (lookup_lt_is_Some_2 (s_d s) i) as [d_i Hd]; [lia|].
  destruct (lookup_lt_is_Some_2 (s_queue s) i) as [queue_i Hqu]; [lia|].
  destruct (lookup_lt_is_Some_2 mu_wait_time i) as [mu Hm]; [lia|].
  destruct (lookup_lt_is_Some_2 p i) as [p_i Hpi]; [lia|].
  apply getitem_Ret in Hq, Ha, Hd, Hqu, Hpi.
  unfold loop_body. rewrite Hev. simpl. destruct k.
  - rewrite Hq. simpl. rewrite Hqu. simpl.
    destruct (i =? 0); [|by eexists].
    unfold random.expovariate. rewrite Hl. simpl. by eexists.
  - rewrite Ha. simpl.
    assert (Hmz : Qeq_bool mu 0 = false).
    { rewrite Forall_forall in Hnz. apply Hnz. by eapply list_elem_of_lookup_2. }
    apply getitem_Ret in Hm. rewrite Hm. simpl.
    unfold random.expovariate. rewrite Hmz. simpl. by eexists.
  - rewrite Hqu. simpl. rewrite Hd. simpl.
    destruct (Z.of_nat i =? n - 1)%Z; [by eexists|].
    destruct (i =? 0) eqn:Hi0; [simpl; by eexists|].
    rewrite Hpi. simpl. destruct (Qlt_bool p_i _); [simpl; by eexists|].
    apply Nat.eqb_neq in Hi0.
    unfold random.choice. rewrite length_seq.
    assert (Hlt : choice_draw O (S (s_rng s)) mod i < i)
      by (apply Nat.mod_upper_bound; done).
    unfold getitem. rewrite (lookup_seq_lt _ _ _ Hlt). simpl. by eexists.
Qed.

Lemma while_loop_no_raise fuel s e :
  (1 <= n)%Z ->
  (Z.to_nat n <= length mu_wait_time) ->
  (Z.to_nat n <= length p) ->
  Qeq_bool lambda_arrival_time 0 = false ->
  Forall (fun mu => Qeq_bool mu 0 = false) mu_wait_time ->
  invariant (Z.to_nat n) s ->
  while_loop time n lambda_arrival_time mu_wait_time p finish O fuel s <> Raise e.
Proof.
  intros Hn Hmu Hp Hl Hnz. revert s. induction fuel as [|fuel IH]; simpl; intros s Hinv.
  - by destruct (loop_guard time finish s).
  - destruct (loop_guard time finish s) eqn:G; [|done].
    unfold loop_guard in G. apply andb_true_iff in G as [_ G].
    apply negb_true_iff in G.
    destruct (loop_body_progress s) as [s1 H1]; try done.
    rewrite H1. simpl. apply IH. by eapply loop_body_invariant.
Qed.

(** C9 (as the code has it): no configuration is checked. The lists of
    the stations are built from [n] (they are empty when [n < 1]) and,
    with a non-zero arrival rate, the first arrival is put on the queue
    whatever [n], the service rates and the feedback probabilities are; a
    zero arrival rate raises [ZeroDivisionError] at the first draw. With
    [n < 1], if the loop makes a pass (drain mode, or a positive horizon),
    the dispatch of that first event raises [IndexError]. If the loop
    makes no pass (fixed-horizon mode with a horizon that is not
    positive) the run returns, for every [n], with the first arrival
    still pending. With [n >= 1], non-zero rates and sequences of length
    at least [n], no run raises anything, whatever the sign of the rates
    and the values of the feedback probabilities. *)
Theorem no_configuration_check :
  (Qeq_bool lambda_arrival_time 0 = false ->
   exists s, initial_state n lambda_arrival_time O = Ret s /\
     s_events s = [((0 + exp_draw O 0 / lambda_arrival_time)%Q, (ASIGNED, 0, 0))]) /\
  (Qeq_bool lambda_arrival_time 0 = true ->
   forall fuel,
     servers_simulation time n lambda_arrival_time mu_wait_time p finish O fuel
     = Raise ZeroDivisionError) /\
  (Qeq_bool lambda_arrival_time 0 = false -> (n < 1)%Z ->
   finish || Qlt_bool 0 time = true ->
   forall fuel,
     servers_simulation time n lambda_arrival_time mu_wait_time p finish O (S fuel)
     = Raise IndexError) /\
  (Qeq_bool lambda_arrival_time 0 = false ->
   finish || Qlt_bool 0 time = false ->
   forall fuel, exists s,
     servers_simulation time n lambda_arrival_time mu_wait_time p finish O fuel
     = Ret s /\
     s_n_a s = 0 /\ s_n_d s = 0 /\
     s_events s
     = [((0 + exp_draw O 0 / lambda_arrival_time)%Q, (ASIGNED, 0, 0))]) /\
  (Qeq_bool lambda_arrival_time 0 = false -> (1 <= n)%Z ->
   Z.to_nat n <= length mu_wait_time -> Z.to_nat n <= length p ->
   Forall (fun mu => Qeq_bool mu 0 = false) mu_wait_time ->
   forall fuel e,
     servers_simulation time n lambda_arrival_time mu_wait_time p finish O fuel
     <> Raise e).
Proof.
  repeat split.
  - intros Hl. unfold initial_state, random.expovariate. rewrite Hl. simpl.
    by eexists.
  - intros Hl fuel. unfold servers_simulation, initial_state, random.expovariate.
    by rewrite Hl.
  - intros Hl Hn Hg fuel.
    unfold servers_simulation.
    destruct (initial_state n lambda_arrival_time O) as [s0| |] eqn:H0.
    + pose proof (initial_stillborn _ _ _ _ Hn H0) as Hs.
      assert (Ht : s_t s0 = 0%Q).
      { unfold initial_state in H0. apply bind_Ret in H0 as (? & _ & [= <-]). done. }
      destruct Hs as (Hq & _ & _ & _ & _ & _ & t & He).
      simpl. unfold loop_guard. rewrite Ht, He, Hg. simpl.
      unfold loop_body. by rewrite He, Hq.
    + unfold initial_state, random.expovariate in H0. by rewrite Hl in H0.
    + unfold initial_state, random.expovariate in H0. by rewrite Hl in H0.
  - intros Hl Hg fuel. apply orb_false_iff in Hg as [Hf Ht].
    unfold servers_simulation, initial_state, random.expovariate.
    rewrite Hl. simpl. eexists. split.
    + destruct fuel; simpl; unfold loop_guard; simpl; rewrite Hf, Ht;
        reflexivity.
    + done.
  - intros Hl Hn Hmu Hp Hnz fuel e. unfold servers_simulation.
    destruct (initial_state n lambda_arrival_time O) as [s0| |] eqn:H0.
    + simpl. apply while_loop_no_raise; try done. by eapply initial_invariant.
    + unfold initial_state, random.expovariate in H0. by rewrite Hl in H0.
    + done.
Qed.
End validation.

(** ** Arrivals and departures *)

Section lossless.
Variables (time : Q) (n : Z) (lambda_arrival_time : Q).
Variables (mu_wait_time p : list Q) (finish : bool).
Variable O : Oracle.
Hypothesis Hn : (1 <= n)%Z.
Hypothesis Hfwd : always_forward p O.

Lemma loop_body_balance s s' :
  invariant (Z.to_nat n) s ->
  s_n_a s = accounted s ->
  loop_body time n lambda_arrival_time mu_wait_time p O s = Ret s' ->
  s_n_a s' = accounted s'.
Proof.
  intros [_ _ _ _ St Sv Hd _ _ _] Hb H. unfold accounted in *.
  destruct (s_events s) as [|[t [[k c] i]] rest] eqn:He.
  { unfold loop_body in H. by rewrite He in H. }
  unfold loop_body in H. rewrite He in H. simpl in H.
  apply Forall_cons in St as [Hi _]. apply Forall_cons in Hd as [Hc _].
  unfold ev_station in Hi; simpl in Hi.
  destruct k.
  - apply bind_Ret in H as (q_i & _ & H).
    apply bind_Ret in H as (queue_i & Hqueue%getitem_Ret & H).
    assert (C1 : forall x, sum_list_with length (<[i:=queue_i ++ [x]]> (s_queue s))
                           = S (sum_list_with length (s_queue s))).
    { intros x. pose proof (sum_lengths_insert _ _ _ (queue_i ++ [x]) Hqueue) as X.
      rewrite length_app in X. simpl in X. lia. }
    assert (Hb' : s_n_a s = s_n_d s + sum_list_with length (s_queue s)
                  + ((if negb (i =? 0) then 1 else 0) + count_ev in_transit rest))
      by exact Hb.
    destruct (i =? 0) eqn:Hi0.
    + apply bind_Ret in H as (gap & _ & [= <-]). proj_simpl. rewrite C1.
      simpl in Hb'.
      destruct (Qlt_bool (t + gap) time), (length queue_i =? 0);
        rewrite ?count_ev_put; simpl; lia.
    + injection H as <-. proj_simpl. rewrite C1. simpl in Hb'.
      destruct (length queue_i =? 0); rewrite ?count_ev_put; simpl; lia.
  - apply bind_Ret in H as (a_i & _ & H).
    apply bind_Ret in H as (mu & _ & H).
    apply bind_Ret in H as (duration & _ & [= <-]). proj_simpl.
    rewrite count_ev_put. exact Hb.
  - apply bind_Ret in H as (queue_i & Hqueue%getitem_Ret & H).
    apply bind_Ret in H as (d_i & _ & H).
    assert (Hqt : s_queue s !!! i = queue_i) by (by apply list_lookup_total_correct).
    specialize (Hc ltac:(done)). unfold ev_station, ev_client in Hc; simpl in Hc.
    rewrite Hqt in Hc. destruct queue_i as [|c0 tl]; [done|]. simpl in H.
    assert (C1 : S (sum_list_with length (<[i:=tl]> (s_queue s)))
                 = sum_list_with length (s_queue s)).
    { pose proof (sum_lengths_insert _ _ _ tl Hqueue) as X. simpl in X. lia. }
    assert (Hb' : s_n_a s = s_n_d s + sum_list_with length (s_queue s)
                  + (0 + count_ev in_transit rest)) by exact Hb.
    assert (E5 : count_ev in_transit
                   match tl with
                   | [] => rest
                   | c' :: _ => pq.put (t, (ARRIVAL, c', i)) rest
                   end = count_ev in_transit rest).
    { destruct tl; [done|]. by rewrite count_ev_put. }
    destruct (Z.of_nat i =? n - 1)%Z.
    + injection H as <-. proj_simpl. rewrite E5. lia.
    + apply bind_Ret in H as ([next_server rng] & Hnext & [= <-]). proj_simpl.
      assert (next_server = i + 1) as ->.
      { destruct (i =? 0); [by injection Hnext as <- _|].
        apply bind_Ret in Hnext as (p_i & Hp%getitem_Ret & Hnext).
        rewrite (Hfwd _ _ _ Hp) in Hnext. by injection Hnext as <- _. }
      rewrite count_ev_put, E5.
      assert (in_transit (t, (ASIGNED, c, i + 1)) = true) as ->.
      { unfold in_transit, ev_kind, ev_station. simpl.
        apply negb_true_iff, Nat.eqb_neq. lia. }
      lia.
Qed.

Lemma passes_balance k : forall s s',
  invariant (Z.to_nat n) s ->
  s_n_a s = accounted s ->
  passes time n lambda_arrival_time mu_wait_time p finish O k s = Ret s' ->
  s_n_a s' = accounted s'.
Proof.
  induction k as [|k IH]; simpl; intros s s' Hinv Hb H.
  - by injection H as <-.
  - destruct (loop_guard time finish s); [|by injection H as <-].
    apply bind_Ret in H as (s1 & H1 & H).
    eapply (IH s1); [|by eapply loop_body_balance|done].
    by eapply loop_body_invariant.
Qed.

Lemma empty_queues s :
  invariant (Z.to_nat n) s -> s_events s = [] ->
  sum_list_with length (s_queue s) = 0.
Proof.
  intros [_ _ _ _ _ Sv _ _ _ _] He. rewrite He in Sv. simpl in Sv.
  assert (G : Forall (fun l => l = []) (s_queue s)).
  { apply Forall_lookup. intros i l Hl. specialize (Sv i).
    rewrite (list_lookup_total_correct _ _ _ Hl) in Sv. by destruct l. }
  clear Sv. induction G as [|l ls -> _ IH]; simpl; [done|]. exact IH.
Qed.
End lossless.

(** A drained run in which no feedback fires ends with as many
    departures as arrivals. *)
Lemma feedback_free_lossless (time : Q) (n : Z) (lambda_arrival_time : Q)
  (mu_wait_time p : list Q) (O : Oracle) (fuel : nat) (s : State) :
  always_forward p O ->
  servers_simulation time n lambda_arrival_time mu_wait_time p true O fuel = Ret s ->
  s_n_d s = s_n_a s.
Proof.
  intros Hfwd H. destruct (Z_lt_le_dec n 1) as [Hn|Hn].
  - apply servers_simulation_snapshot, snapshot_stillborn in H; [|done].
    destruct H as (_ & _ & _ & _ & -> & -> & _). done.
  - apply bind_Ret in H as (s0 & H0 & H).
    pose proof (while_loop_exit _ _ _ _ _ _ _ _ _ _ H) as Hg.
    unfold loop_guard in Hg. simpl in Hg. apply negb_false_iff in Hg.
    assert (He : s_events s = []) by (by destruct (s_events s)).
    pose proof (initial_invariant _ _ _ _ Hn H0) as I0.
    apply while_loop_passes in H.
    pose proof (passes_invariant _ _ _ _ _ _ _ _ _ _ Hn I0 H) as I.
    assert (B0 : s_n_a s0 = accounted s0).
    { unfold initial_state in H0. apply bind_Ret in H0 as (first & _ & [= <-]).
      unfold accounted. proj_simpl. by rewrite sum_lengths_replicate. }
    pose proof (passes_balance _ _ _ _ _ _ _ Hn Hfwd _ _ _ I0 B0 H) as B.
    unfold accounted in B. rewrite (empty_queues _ _ I He), He in B. simpl in B. lia.
Qed.

(** ** Client numbers *)

Section identifiers.
Variables (time : Q) (n : Z) (lambda_arrival_time : Q).
Variables (mu_wait_time p : list Q).
Variable O : Oracle.

Lemma elem_of_put x h : x ∈ pq.put x h.
Proof.
  induction h as [|y h IH]; simpl; [apply list_elem_of_singleton; done|].
  destruct (event_lt x y); [left|by right].
Qed.

(** The event that sends a client on carries the client's number. *)
Lemma finish_forwards_client s s' t c i rest :
  s_events s = (t, (FINISH, c, i)) :: rest ->
  Z.of_nat i <> (n - 1)%Z ->
  loop_body time n lambda_arrival_time mu_wait_time p O s = Ret s' ->
  exists next_server, (t, (ASIGNED, c, next_server)) ∈ s_events s'.
Proof.
  intros He Hlast H. unfold loop_body in H. rewrite He in H. simpl in H.
  apply bind_Ret in H as (queue_i & _ & H).
  apply bind_Ret in H as (d_i & _ & H).
  apply Z.eqb_neq in Hlast. rewrite Hlast in H.
  apply bind_Ret in H as ([next_server rng] & _ & [= <-]).
  exists next_server. proj_simpl. apply elem_of_put.
Qed.

(** At a station other than the first, the entry is recorded under the
    number the event carries. *)
Lemma later_station_keeps_number s s' t c i rest :
  s_events s = (t, (ASIGNED, c, i)) :: rest ->
  i <> 0 ->
  loop_body time n lambda_arrival_time mu_wait_time p O s = Ret s' ->
  stamps (s_q s') i c = stamps (s_q s) i c ++ [t] /\ s_n_a s' = s_n_a s.
Proof.
  intros He Hi H. unfold loop_body in H. rewrite He in H. simpl in H.
  apply bind_Ret in H as (q_i & Hq%getitem_Ret & H).
  apply bind_Ret in H as (queue_i & _ & H).
  apply Nat.eqb_neq in Hi. rewrite Hi in H. simpl in H. injection H as <-.
  proj_simpl. split; [|done].
  rewrite stamps_insert by done. by rewrite decide_True.
Qed.

(** At station 0 the number the event carries is ignored: the entry is
    recorded under the arrival counter, which is then incremented. *)
Lemma station_0_takes_fresh_number s s' t c rest :
  s_events s = (t, (ASIGNED, c, 0)) :: rest ->
  loop_body time n lambda_arrival_time mu_wait_time p O s = Ret s' ->
  s_n_a s' = S (s_n_a s) /\
  stamps (s_q s') 0 (s_n_a s) = stamps (s_q s) 0 (s_n_a s) ++ [t] /\
  (c <> s_n_a s -> stamps (s_q s') 0 c = stamps (s_q s) 0 c).
Proof.
  intros He H. unfold loop_body in H. rewrite He in H. simpl in H.
  apply bind_Ret in H as (q_i & Hq%getitem_Ret & H).
  apply bind_Ret in H as (queue_i & _ & H).
  apply bind_Ret in H as (gap & _ & [= <-]). proj_simpl.
  split; [done|]. rewrite !stamps_insert by done. split.
  - by rewrite decide_True.
  - intros Hc. by rewrite decide_False by tauto.
Qed.
End identifiers.

(** ** The replication controller *)

Section controller.
Variables (time : Q) (n : Z) (lambda_arrival_time : Q).
Variables (mu_wait_time p : list Q) (finish : bool).
Variable Os : nat -> Oracle.
Variable fuel : nat.
Variables (min_it max_it : nat).
Variable threshold : Q.

Local Notation "'run_k'" :=
  (replication time n lambda_arrival_time mu_wait_time p finish Os fuel).
Local Notation "'accs'" :=
  (acc_after time n lambda_arrival_time mu_wait_time p finish Os fuel).
Local Notation "'loop_with' std" :=
  (controller_loop time n lambda_arrival_time mu_wait_time p finish Os fuel
     std min_it max_it threshold) (at level 10, std at level 9).
Local Notation "'stops_with' std" :=
  (stop_at time n lambda_arrival_time mu_wait_time p finish Os fuel
     std min_it max_it threshold) (at level 10, std at level 9).

Lemma acc_after_S j :
  accs (S j)
  = record_run (accs j)
      (metrics_of time n lambda_arrival_time mu_wait_time p finish Os fuel j).
Proof. unfold acc_after. by rewrite seq_S, foldl_app. Qed.

Lemma length_acc_after j : length (acc_system_time (accs j)) = j.
Proof.
  induction j as [|j IH]; [done|].
  rewrite acc_after_S. simpl. rewrite length_app, IH. simpl. lia.
Qed.

Lemma controller_loop_step std k it :
  returns (run_k it) = true ->
  loop_with std (S k) it (accs it)
  = if stops_with std (S it) then Ret (accs (S it))
    else loop_with std k (S it) (accs (S it)).
Proof.
  intros Hr. simpl. rewrite acc_after_S. unfold stop_at, metrics_of.
  rewrite acc_after_S. unfold metrics_of.
  change (metrics_by_simulation time n lambda_arrival_time mu_wait_time p
            finish (Os it) fuel) with (run_k it).
  destruct (run_k it) as [m| |]; [|done|done]. simpl.
  destruct (max_it <=? S it); [done|]. simpl.
  by destruct (min_it <=? S it).
Qed.

Lemma controller_loop_stop std d : forall it k,
  d < k ->
  (forall j, it <= j <= it + d -> returns (run_k j) = true) ->
  (forall j, it < j <= it + d -> stops_with std j = false) ->
  stops_with std (it + d + 1) = true ->
  loop_with std k it (accs it) = Ret (accs (it + d + 1)).
Proof.
  induction d as [|d IH]; intros it k Hk Hr Hs Hstop.
  - destruct k as [|k]; [lia|]. rewrite controller_loop_step by (apply Hr; lia).
    replace (it + 0 + 1) with (S it) in * by lia. by rewrite Hstop.
  - destruct k as [|k]; [lia|]. rewrite controller_loop_step by (apply Hr; lia).
    rewrite Hs by lia. replace (it + S d + 1) with (S it + d + 1) in * by lia.
    apply IH; [lia| | |done].
    + intros j Hj. apply Hr. lia.
    + intros j Hj. apply Hs. lia.
Qed.

Lemma controller_loop_bounded std k : forall it,
  1 <= k -> max_it <= it + k ->
  (forall j, it <= j < it + k -> returns (run_k j) = true) ->
  exists j, it < j <= it + k /\ loop_with std k it (accs it) = Ret (accs j).
Proof.
  induction k as [|k IH]; intros it Hk Hmax Hr; [lia|].
  rewrite controller_loop_step by (apply Hr; lia).
  destruct (stops_with std (S it)) eqn:Hs.
  - exists (S it). split; [lia|done].
  - unfold stop_at in Hs. apply orb_false_iff in Hs as [Hs _].
    apply Nat.leb_gt in Hs.
    destruct (IH (S it)) as (j & Hj & Hloop); [lia|lia| |].
    + intros j Hj. apply Hr. lia.
    + exists j. split; [lia|done].
Qed.

Lemma controller_loop_short_sequences std1 std2 :
  (forall l, min_it <= length l -> std1 l = std2 l) ->
  forall k it acc,
    length (acc_system_time acc) = it ->
    loop_with std1 k it acc = loop_with std2 k it acc.
Proof.
  intros Hstd. induction k as [|k IH]; intros it acc Hlen; [done|]. simpl.
  destruct (metrics_by_simulation time n lambda_arrival_time mu_wait_time p
              finish (Os it) fuel) as [m| |]; [|done|done]. simpl.
  destruct (max_it <=? S it); [done|].
  assert (Hl : length (acc_system_time acc ++ [np.mean (m_system_time m)]) = S it)
    by (rewrite length_app; simpl; lia).
  destruct (min_it <=? S it) eqn:Hmin; simpl.
  - apply Nat.leb_le in Hmin. unfold converged. rewrite Hstd by lia.
    destruct (match std2 _ with Some _ => _ | None => _ end); [done|].
    by apply IH.
  - by apply IH.
Qed.
End controller.

(** C7: with the constants of [run_simulation] (at least 1000 and at most
    5000 runs) and any convergence threshold: the result does not depend
    on what [np.std] returns on sequences shorter than [min_iterations],
    so no convergence test is made before that many runs are recorded;
    when the first [max_iterations] runs return, the controller returns
    after at most [max_iterations] of them; and when the test holds on
    the first [min_iterations] means, it returns after exactly
    [min_iterations] runs. *)
Theorem controller_stopping_rule (time : Q) (n : Z) (lambda_arrival_time : Q)
  (mu_wait_time p : list Q) (finish : bool) (Os : nat -> Oracle) (fuel : nat)
  (np_std : list (option Q) -> option Q) (threshold : Q) :
  let run std :=
    replications time n lambda_arrival_time mu_wait_time p finish Os fuel std
      min_iterations max_iterations threshold in
  let replication := replication time n lambda_arrival_time mu_wait_time p finish Os fuel in
  let acc_after := acc_after time n lambda_arrival_time mu_wait_time p finish Os fuel in
  (forall std',
     (forall l, min_iterations <= length l -> std' l = np_std l) ->
     run std' = run np_std) /\
  ((forall k, k < max_iterations -> returns (replication k) = true) ->
   exists j, 0 < j <= max_iterations /\ run np_std = Ret (acc_after j) /\
             length (acc_system_time (acc_after j)) = j) /\
  ((forall k, k < min_iterations -> returns (replication k) = true) ->
   converged np_std threshold (acc_system_time (acc_after min_iterations)) = true ->
   run np_std = Ret (acc_after min_iterations) /\
   length (acc_system_time (acc_after min_iterations)) = min_iterations).
Proof.
  intros run replication acc_after.
  assert (Hmm : 1 <= min_iterations <= max_iterations /\ Nat.max 1 max_iterations = max_iterations).
  { unfold min_iterations, max_iterations. lia. }
  destruct Hmm as [Hmm Hmax].
  split; [|split].
  - intros std' Hstd. unfold run, replications.
    by apply controller_loop_short_sequences.
  - intros Hr. unfold run, replications. rewrite Hmax.
    destruct (controller_loop_bounded time n lambda_arrival_time mu_wait_time p
                finish Os fuel min_iterations max_iterations threshold np_std
                max_iterations 0) as (j & Hj & Hloop); [lia|lia| |].
    + intros j Hj. apply Hr. lia.
    + exists j. split; [lia|]. split; [done|]. apply length_acc_after.
  - intros Hr Hc. split; [|apply length_acc_after].
    unfold run, replications. rewrite Hmax.
    replace min_iterations with (0 + (min_iterations - 1) + 1) at 2 by lia.
    apply controller_loop_stop.
    + lia.
    + intros j Hj. apply Hr. lia.
    + intros j Hj. unfold stop_at. apply orb_false_iff. split.
      * apply Nat.leb_gt. lia.
      * apply andb_false_iff. left. apply Nat.leb_gt. lia.
    + replace (0 + (min_iterations - 1) + 1) with min_iterations by lia.
      unfold stop_at. fold acc_after. rewrite Hc.
      apply orb_true_iff. right. apply andb_true_iff. split; [|done].
      by apply Nat.leb_le.
Qed.

(** ** Runs on concrete draws *)


(** C2: three stations, feedback probability 1/2 at station 1. Client 0
    enters at time 1 and is sent back from station 1 to station 0 at
    time 3. Its second entry into station 0 is recorded under the new
    number 1 and counted as an arrival; the departure from the last
    station is recorded under 1, and client 0 has none. *)
Theorem feedback_to_station_0_renames :
  exists s,
    servers_simulation 10 3 1 [1; 1; 1]%Q [0; 1 # 2; 0]%Q true
      (runs.fed_back (3 # 10)) 100 = Ret s /\
    s_events s = [] /\ s_n_a s = 2 /\ s_n_d s = 1 /\
    stamps (s_q s) 0 0 = [1%Q] /\ stamps (s_d s) 1 0 = [3%Q] /\
    stamps (s_q s) 0 1 = [3%Q] /\
    stamps (s_d s) 2 0 = [] /\ stamps (s_d s) 2 1 = [6%Q].
Proof. eexists. split; [vm_compute; reflexivity|]. vm_compute. auto 10. Qed.

(** C5: three stations, all feedback probabilities zero, run drained to
    completion. The uniform draw at station 1 is 0, which is not greater
    than the probability 0: the client is sent back to station 0 and
    counted as a second arrival. One client entered and left, and the
    run ends with two arrivals and one departure. *)
Theorem zero_draw_feeds_back :
  exists s,
    servers_simulation 10 3 1 [1; 1; 1]%Q [0; 0; 0]%Q true
      (runs.fed_back 0) 100 = Ret s /\
    s_events s = [] /\ s_n_a s = 2 /\ s_n_d s = 1.
Proof. eexists. split; [vm_compute; reflexivity|]. vm_compute. auto. Qed.

(** C3: four stations, feedback probability 1/2 at station 2, horizon 10,
    drain flag false. Client 0 (entered at 1) is sent back to station 1
    and has not left the network when the run stops; client 1 (entered
    at 2) left station 3 at time 6. The reducer tests [c < n_d] with
    [n_d = 1]: client 0 gets the system time [-1] and client 1, whose
    system time is 4, gets none. *)
Theorem system_time_by_position :
  exists s m,
    servers_simulation 10 4 1 [1; 1; 1; 1]%Q [0; 0; 1 # 2; 0]%Q false
      runs.overtaken 100 = Ret s /\
    metrics_by_simulation 10 4 1 [1; 1; 1; 1]%Q [0; 0; 1 # 2; 0]%Q false
      runs.overtaken 100 = Ret m /\
    s_n_a s = 2 /\ s_n_d s = 1 /\
    stamps (s_q s) 0 0 = [1%Q] /\ stamps (s_d s) 3 0 = [] /\
    stamps (s_q s) 0 1 = [2%Q] /\ Forall2 Qeq (stamps (s_d s) 3 1) [6%Q] /\
    m_system_time m = [(-1)%Q; 0%Q].
Proof.
  eexists. eexists. split; [vm_compute; reflexivity|].
  split; [vm_compute; reflexivity|]. vm_compute.
  repeat split; auto.
Qed.

(** C8: one station, horizon 10, drain flag false. Client 0 is served
    from 1 to 21; client 1, queued at 4, has no service start and no
    departure when the run stops. Its entry of [system_time] stays 0 and
    is averaged with the 20 of client 0: the mean is 10. *)
Theorem absent_counted_as_zero :
  exists s m,
    servers_simulation 10 1 1 [1]%Q [0]%Q false runs.queued 100 = Ret s /\
    metrics_by_simulation 10 1 1 [1]%Q [0]%Q false runs.queued 100 = Ret m /\
    s_n_a s = 2 /\ s_n_d s = 1 /\
    stamps (s_q s) 0 1 = [4%Q] /\ stamps (s_d s) 0 1 = [] /\
    m_system_time m = [20%Q; 0%Q] /\
    np.mean (m_system_time m) = Some (20 / 2)%Q.
Proof.
  eexists. eexists. split; [vm_compute; reflexivity|].
  split; [vm_compute; reflexivity|]. vm_compute. auto 10.
Qed.

(** C9, as stated, fails: a negative service rate, a feedback probability
    below 0, another above 1 and sequences longer than [n] are accepted
    and the run returns; with [n = 0] the first arrival is scheduled
    before the run fails, with an [IndexError]; and with [n = 0], horizon
    0 and the drain flag false the run returns, the first arrival still
    on the queue. *)
Lemma invalid_configuration_runs :
  (exists s,
     servers_simulation 10 3 1 [-1; 1; 1; 7]%Q [5; -1 # 2; 9; 9]%Q true
       runs.late 100 = Ret s /\
     s_n_a s = 1 /\ s_n_d s = 1) /\
  (exists s0,
     initial_state 0 1 runs.late = Ret s0 /\
     s_events s0 = [((0 + 3 / 1)%Q, (ASIGNED, 0, 0))] /\
     servers_simulation 10 0 1 [] [] true runs.late 100 = Raise IndexError) /\
  (exists s,
     servers_simulation 0 0 1 [] [] false runs.late 100 = Ret s /\
     s_n_a s = 0 /\ s_events s = [((0 + 3 / 1)%Q, (ASIGNED, 0, 0))]).
Proof.
  split; [|split].
  - eexists. split; [vm_compute; reflexivity|]. vm_compute. auto.
  - eexists. split; [vm_compute; reflexivity|]. vm_compute. auto.
  - eexists. split; [vm_compute; reflexivity|]. vm_compute. auto.
Qed.

(** Two stations, no feedback, run drained to completion: the client
    that entered has left. *)
Lemma feedback_free_lossless_instance :
  exists s,
    servers_simulation 10 2 1 [1; 1]%Q [0; 0]%Q true runs.late 100 = Ret s /\
    s_n_d s = s_n_a s.
Proof.
  eexists. split; [vm_compute; reflexivity|].
  apply (feedback_free_lossless 10 2 1 [1; 1]%Q [0; 0]%Q runs.late 100).
  - intros [|[|i]] p_i k [=]; subst; reflexivity.
  - vm_compute; reflexivity.
Qed.

(** ** Instances *)

Lemma trace_lengths_ordered_witness :
  exists s,
    snapshot 10 2 1 [1; 1]%Q [0; 0]%Q false runs.late 3 = Ret s /\
    length (stamps (s_d s) 0 0) <= length (stamps (s_a s) 0 0) /\
    length (stamps (s_a s) 0 0) <= length (stamps (s_q s) 0 0).
Proof.
  eexists. split; [vm_compute; reflexivity|].
  apply (trace_lengths_ordered 10 2 1 [1; 1]%Q [0; 0]%Q false runs.late 3).
  vm_compute; reflexivity.
Defined.

Lemma finish_pops_its_client_witness :
  exists s,
    snapshot 10 2 1 [1; 1]%Q [0; 0]%Q false runs.late 2 = Ret s /\
    exists tl, s_queue s !! 0 = Some (0 :: tl) /\
      forall s', loop_body 10 2 1 [1; 1]%Q [0; 0]%Q runs.late s = Ret s' ->
                 s_queue s' !! 0 = Some tl.
Proof.
  eexists. split; [vm_compute; reflexivity|].
  eapply (finish_pops_its_client 10 2 1 [1; 1]%Q [0; 0]%Q false runs.late 2).
  - vm_compute; reflexivity.
  - vm_compute; reflexivity.
Defined.


Lemma get_least_tuple_witness :
  Forall (fun y => event_lt y (5%Q, (ASIGNED, 1, 2)) = false)
    [(5%Q, (ASIGNED, 3, 1))].
Proof.
  apply (get_least_tuple
           [Put (5%Q, (ASIGNED, 3, 1)); Put (5%Q, (ASIGNED, 1, 2))]
           (5%Q, (ASIGNED, 1, 2)) [(5%Q, (ASIGNED, 3, 1))]).
  reflexivity.
Defined.

Lemma no_configuration_check_witness :
  (exists s,
     initial_state 3 1 runs.late = Ret s /\
     s_events s = [((0 + exp_draw runs.late 0 / 1)%Q, (ASIGNED, 0, 0))]) /\
  servers_simulation 10 3 0 [1; 1; 1]%Q [0; 0; 0]%Q true runs.late 5
  = Raise ZeroDivisionError /\
  servers_simulation 10 0 1 [] [] true runs.late 5 = Raise IndexError /\
  (exists s,
     servers_simulation 0 0 1 [] [] false runs.late 5 = Ret s /\
     s_n_a s = 0 /\ s_n_d s = 0 /\
     s_events s = [((0 + exp_draw runs.late 0 / 1)%Q, (ASIGNED, 0, 0))]) /\
  servers_simulation 10 3 1 [-1; 1; 1; 7]%Q [5; -1 # 2; 9; 9]%Q true
    runs.late 100
  <> Raise IndexError.
Proof.
  split; [|split; [|split; [|split]]].
  - apply (proj1 (no_configuration_check 10 3 1 [-1; 1; 1; 7]%Q
                    [5; -1 # 2; 9; 9]%Q true runs.late)).
    reflexivity.
  - apply (proj1 (proj2 (no_configuration_check 10 3 0 [1; 1; 1]%Q
                           [0; 0; 0]%Q true runs.late))).
    reflexivity.
  - apply (proj1 (proj2 (proj2 (no_configuration_check 10 0 1 [] [] true
                                   runs.late)))).
    + reflexivity.
    + lia.
    + reflexivity.
  - apply (proj1 (proj2 (proj2 (proj2 (no_configuration_check 0 0 1 [] []
                                          false runs.late))))).
    + reflexivity.
    + reflexivity.
  - apply (proj2 (proj2 (proj2 (proj2 (no_configuration_check 10 3 1
                                          [-1; 1; 1; 7]%Q [5; -1 # 2; 9; 9]%Q
                                          true runs.late))))).
    + reflexivity.
    + lia.
    + simpl. lia.
    + simpl. lia.
    + repeat constructor.
Defined.

Lemma controller_stopping_rule_witness :
  let accs := acc_after 0 1 1 [1]%Q [0]%Q true (fun _ => runs.late) 10 in
  let run std :=
    replications 0 1 1 [1]%Q [0]%Q true (fun _ => runs.late) 10 std
      min_iterations max_iterations 1 in
  let late_std l :=
    if length l <? min_iterations then None else np.std (fun x => x) l in
  run late_std = run (np.std (fun x => x)) /\
  (exists j, 0 < j <= max_iterations /\
     run (np.std (fun x => x)) = Ret (accs j) /\
     length (acc_system_time (accs j)) = j) /\
  run (np.std (fun x => x)) = Ret (accs min_iterations) /\
  length (acc_system_time (accs min_iterations)) = min_iterations.
Proof.
  intros accs run late_std.
  pose proof (controller_stopping_rule 0 1 1 [1]%Q [0]%Q true
                (fun _ => runs.late) 10 (np.std (fun x => x)) 1)
    as (Hshort & Hmax & Hmin).
  unfold run, accs. split; [|split].
  - apply Hshort. intros l Hl. unfold late_std.
    apply Nat.ltb_ge in Hl. rewrite Hl. reflexivity.
  - apply Hmax. intros k _. vm_compute. reflexivity.
  - apply Hmin.
    + intros k _. vm_compute. reflexivity.
    + vm_compute. reflexivity.
Defined.

(** * Further properties *)

(** ** Client numbers and station 0 *)

Section numbering.
Variables (time : Q) (n : Z) (lambda_arrival_time : Q).
Variables (mu_wait_time p : list Q) (finish : bool).
Variable O : Oracle.

Lemma Forall_insert_queue (P : list nat -> Prop) (l : list (list nat)) i x :
  Forall P l -> P x -> Forall P (<[i:=x]> l).
Proof. intros Hl Hx. by apply Forall_insert. Qed.

Lemma loop_body_numbered s s' :
  numbered s ->
  loop_body time n lambda_arrival_time mu_wait_time p O s = Ret s' ->
  numbered s'.
Proof.
  intros [Ev Qu Nq Na Nd Nf] H.
  destruct (s_events s) as [|[t [[k c] i]] rest] eqn:He.
  { unfold loop_body in H. by rewrite He in H. }
  unfold loop_body in H. rewrite He in H. simpl in H.
  apply Forall_cons in Ev as [Hx Ev].
  destruct k.
  - apply bind_Ret in H as (q_i & Hq%getitem_Ret & H).
    apply bind_Ret in H as (queue_i & Hqueue%getitem_Ret & H).
    assert (Hqi : Forall (fun c => c < s_n_a s) queue_i).
    { rewrite Forall_forall in Qu. apply Qu. by eapply list_elem_of_lookup_2. }
    destruct (i =? 0) eqn:Hi0.
    + apply Nat.eqb_eq in Hi0. subst i. simpl in H.
      apply bind_Ret in H as (gap & _ & [= <-]).
      assert (Ev1 : Forall (fun x => external x = true \/ ev_client x < S (s_n_a s))
                      (if length queue_i =? 0
                       then pq.put (t, (ARRIVAL, s_n_a s, 0)) rest else rest)).
      { assert (Forall (fun x => external x = true \/ ev_client x < S (s_n_a s)) rest).
        { eapply Forall_impl; [exact Ev|]. intros x [?|?]; [by left|right; lia]. }
        destruct (length queue_i =? 0); [|done]. apply Forall_put. split; [|done].
        right. unfold ev_client. simpl. lia. }
      split; proj_simpl.
      * destruct (Qlt_bool _ _); [|done]. apply Forall_put. split; [by left|done].
      * apply Forall_insert.
        -- eapply Forall_impl; [exact Qu|]. intros l Hl.
           eapply Forall_impl; [exact Hl|]. intros; simpl in *; lia.
        -- apply Forall_app. split.
           ++ eapply Forall_impl; [exact Hqi|]. intros; simpl in *; lia.
           ++ apply Forall_singleton. lia.
      * intros i c' Hc. rewrite stamps_insert by done.
        rewrite decide_False by lia. apply Nq. lia.
      * intros i c' Hc. apply Na. lia.
      * intros i c' Hc. apply Nd. lia.
      * intros c' Hc. rewrite stamps_insert by done.
        destruct (decide (c' = s_n_a s)) as [->|Hne].
        -- rewrite decide_True by done. rewrite Nq by lia. done.
        -- rewrite decide_False by tauto. apply Nf. lia.
    + apply Nat.eqb_neq in Hi0. simpl in H. injection H as <-.
      assert (Hc : c < s_n_a s).
      { destruct Hx as [Hx|Hx]; [|done]. unfold external, ev_kind, ev_station in Hx.
        simpl in Hx. apply Nat.eqb_eq in Hx. done. }
      split; proj_simpl; try done.
      * destruct (length queue_i =? 0); [|done]. apply Forall_put. split; [|done].
        by right.
      * apply Forall_insert; [done|]. apply Forall_app. split; [done|].
        by apply Forall_singleton.
      * intros i' c' Hc'. rewrite stamps_insert by done.
        rewrite decide_False by lia. by apply Nq.
      * intros c' Hc'. rewrite stamps_insert by done.
        rewrite decide_False by lia. by apply Nf.
  - apply bind_Ret in H as (a_i & Ha%getitem_Ret & H).
    apply bind_Ret in H as (mu & _ & H).
    apply bind_Ret in H as (duration & _ & [= <-]).
    assert (Hc : c < s_n_a s) by (by destruct Hx as [Hx|Hx]).
    split; proj_simpl; try done.
    + apply Forall_put. split; [by right|done].
    + intros i' c' Hc'. rewrite stamps_insert by done.
      rewrite decide_False by lia. by apply Na.
  - apply bind_Ret in H as (queue_i & Hqueue%getitem_Ret & H).
    apply bind_Ret in H as (d_i & Hd%getitem_Ret & H).
    assert (Hc : c < s_n_a s) by (by destruct Hx as [Hx|Hx]).
    assert (Hqi : Forall (fun c => c < s_n_a s) queue_i).
    { rewrite Forall_forall in Qu. apply Qu. by eapply list_elem_of_lookup_2. }
    set (queue_i' := if 0 <? length queue_i then tail queue_i else queue_i) in *.
    assert (Hqi' : Forall (fun c => c < s_n_a s) queue_i').
    { subst queue_i'. destruct queue_i; simpl; [done|]. by apply Forall_cons in Hqi as [_ ?]. }
    assert (Ev1 : Forall (fun x => external x = true \/ ev_client x < s_n_a s)
                    match queue_i' with
                    | [] => rest
                    | c' :: _ => pq.put (t, (ARRIVAL, c', i)) rest
                    end).
    { destruct queue_i' as [|c' tl]; [done|]. apply Forall_put. split; [|done].
      right. apply Forall_cons in Hqi' as [? _]. done. }
    assert (Nd' : forall i' c', s_n_a s <= c' ->
              stamps (<[i:=<[c:=stamped d_i c t]> d_i]> (s_d s)) i' c' = []).
    { intros i' c' Hc'. rewrite stamps_insert by done.
      rewrite decide_False by lia. by apply Nd. }
    destruct (Z.of_nat i =? n - 1)%Z.
    + injection H as <-. split; proj_simpl; try done. by apply Forall_insert.
    + apply bind_Ret in H as ([next_server rng] & _ & [= <-]).
      split; proj_simpl; try done.
      * apply Forall_put. split; [by right|done].
      * by apply Forall_insert.
Qed.

Lemma initial_numbered s :
  initial_state n lambda_arrival_time O = Ret s -> numbered s.
Proof.
  intros H. unfold initial_state in H.
  apply bind_Ret in H as (first & _ & [= <-]).
  split; proj_simpl.
  - apply Forall_singleton. by left.
  - apply Forall_replicate. done.
  - intros i c _. unfold stamps. by rewrite slots_replicate.
  - intros i c _. unfold stamps. by rewrite slots_replicate.
  - intros i c _. unfold stamps. by rewrite slots_replicate.
  - intros c Hc. lia.
Qed.

Lemma snapshot_numbered k s :
  snapshot time n lambda_arrival_time mu_wait_time p finish O k = Ret s ->
  numbered s.
Proof.
  intros H. apply bind_Ret in H as (s0 & H0 & H).
  apply initial_numbered in H0. revert s0 H0 H.
  induction k as [|k IH]; simpl; intros s0 H0 H.
  - by injection H as <-.
  - destruct (loop_guard time finish s0); [|by injection H as <-].
    apply bind_Ret in H as (s1 & H1 & H). eapply IH; [|done].
    by eapply loop_body_numbered.
Qed.

(** X1: in every state of every run, the arrival counter [n_a] counts the
    entries into station 0: each client number below [n_a] has exactly
    one queue-entry stamp at station 0, and a number from [n_a] on has no
    stamp of any kind at any station. *)
Theorem arrivals_number_station_0 k s c :
  snapshot time n lambda_arrival_time mu_wait_time p finish O k = Ret s ->
  length (stamps (s_q s) 0 c) = (if c <? s_n_a s then 1 else 0) /\
  forall i, s_n_a s <= c ->
    stamps (s_q s) i c = [] /\ stamps (s_a s) i c = [] /\ stamps (s_d s) i c = [].
Proof.
  intros [Ev Qu Nq Na Nd Nf]%snapshot_numbered. split.
  - destruct (c <? s_n_a s) eqn:E.
    + apply Nat.ltb_lt in E. by apply Nf.
    + apply Nat.ltb_ge in E. by rewrite Nq.
  - intros i Hc. repeat split; auto.
Qed.
End numbering.

(** ** Time stamps *)

Lemma invariant_lengths (n : Z) s i c :
  invariant (Z.to_nat n) s ->
  length (stamps (s_d s) i c) <= length (stamps (s_a s) i c) /\
  length (stamps (s_a s) i c) <= length (stamps (s_q s) i c).
Proof.
  intros H. pose proof (finishing_le_occ n s i c H) as F.
  destruct H as [_ _ _ _ _ _ _ Qe Ss _].
  specialize (Qe i c). specialize (Ss i c). lia.
Qed.

Lemma Qdiv_nonneg a b : (0 <= a)%Q -> (0 < b)%Q -> (0 <= a / b)%Q.
Proof.
  intros Ha Hb. unfold Qdiv. apply Qmult_le_0_compat; [done|].
  apply Qinv_le_0_compat. lra.
Qed.

Lemma expovariate_nonneg O lambd k x :
  (0 < lambd)%Q -> (forall k, (0 <= exp_draw O k)%Q) ->
  random.expovariate O lambd k = Ret x -> (0 <= x)%Q.
Proof.
  intros Hl Hd. unfold random.expovariate. destruct (Qeq_bool lambd 0); [done|].
  intros [= <-]. by apply Qdiv_nonneg.
Qed.

Lemma not_lt_time x y : event_lt y x = false -> (x.1 <= y.1)%Q.
Proof.
  intros H. destruct (Qlt_le_dec y.1 x.1) as [Hlt|Hle]; [|done].
  assert (event_lt y x = true) by (apply event_lt_iff; by left). congruence.
Qed.

Lemma visits_ordered_snoc_late early late t :
  visits_ordered early late ->
  Forall (fun x => (x <= t)%Q) early ->
  visits_ordered early (late ++ [t]).
Proof.
  intros Ho He j x y Hx Hy. apply lookup_app_Some in Hy as [Hy|[_ Hy]].
  - by eapply Ho.
  - apply list_lookup_singleton_Some in Hy as [_ <-].
    rewrite Forall_forall in He. apply He. by eapply list_elem_of_lookup_2.
Qed.

Lemma visits_ordered_snoc_early early late t :
  visits_ordered early late ->
  length late <= length early ->
  visits_ordered (early ++ [t]) late.
Proof.
  intros Ho Hl j x y Hx Hy. apply lookup_app_Some in Hx as [Hx|[Hj _]].
  - by eapply Ho.
  - apply lookup_lt_Some in Hy. lia.
Qed.

Lemma Forall_le_snoc (l : list Q) (t0 t : Q) :
  Forall (fun x => (x <= t0)%Q) l -> (t0 <= t)%Q ->
  Forall (fun x => (x <= t)%Q) (l ++ [t]).
Proof.
  intros Hl Ht. apply Forall_app. split.
  - eapply Forall_impl; [exact Hl|]. intros x Hx. simpl in Hx. lra.
  - apply Forall_singleton. lra.
Qed.

Lemma Forall_le_later (l : list Q) (t0 t : Q) :
  Forall (fun x => (x <= t0)%Q) l -> (t0 <= t)%Q ->
  Forall (fun x => (x <= t)%Q) l.
Proof.
  intros Hl Ht. eapply Forall_impl; [exact Hl|]. intros x Hx. simpl in Hx. lra.
Qed.

Section timing.
Variables (time : Q) (n : Z) (lambda_arrival_time : Q).
Variables (mu_wait_time p : list Q) (finish : bool).
Variable O : Oracle.
Hypothesis Hfit : forward_in_time lambda_arrival_time mu_wait_time O.

Lemma loop_body_timed s s' :
  invariant (Z.to_nat n) s -> timed s ->
  loop_body time n lambda_arrival_time mu_wait_time p O s = Ret s' ->
  timed s' /\ (s_t s <= s_t s')%Q.
Proof.
  intros Hinv [So Pe Tq Ta Td Wa Se] H.
  destruct Hfit as (Hlam & Hmu & Hdraw).
  destruct (s_events s) as [|[t [[k c] i]] rest] eqn:He.
  { unfold loop_body in H. by rewrite He in H. }
  unfold loop_body in H. rewrite He in H. simpl in H.
  apply Forall_cons in Pe as [Ht Pe]. simpl in Ht.
  apply StronglySorted_inv in So as [So Hrest].
  assert (Pe' : Forall (fun x => (t <= x.1)%Q) rest).
  { eapply Forall_impl; [exact Hrest|]. intros y Hy. by apply not_lt_time in Hy. }
  assert (Tq' : forall i c, Forall (fun x => (x <= t)%Q) (stamps (s_q s) i c))
    by (intros; by eapply Forall_le_later).
  assert (Ta' : forall i c, Forall (fun x => (x <= t)%Q) (stamps (s_a s) i c))
    by (intros; by eapply Forall_le_later).
  assert (Td' : forall i c, Forall (fun x => (x <= t)%Q) (stamps (s_d s) i c))
    by (intros; by eapply Forall_le_later).
  assert (Hput : forall x h, ascending h -> Forall (fun x => (t <= x.1)%Q) h ->
            (t <= x.1)%Q ->
            ascending (pq.put x h) /\ Forall (fun x => (t <= x.1)%Q) (pq.put x h)).
  { intros x h Hh Hf Hx. split; [by apply put_ascending|]. apply Forall_put. by split. }
  destruct k.
  - apply bind_Ret in H as (q_i & Hq%getitem_Ret & H).
    apply bind_Ret in H as (queue_i & _ & H).
    set (index := if negb (i =? 0) then c else s_n_a s) in *.
    assert (E1 : ascending (if length queue_i =? 0
                            then pq.put (t, (ARRIVAL, index, i)) rest else rest) /\
                 Forall (fun x => (t <= x.1)%Q)
                   (if length queue_i =? 0
                    then pq.put (t, (ARRIVAL, index, i)) rest else rest)).
    { destruct (length queue_i =? 0); [|done]. apply Hput; try done. simpl. lra. }
    destruct E1 as [E1 E2].
    assert (Tq1 : forall i' c', Forall (fun x => (x <= t)%Q)
              (stamps (<[i:=<[index:=stamped q_i index t]> q_i]> (s_q s)) i' c')).
    { intros i' c'. rewrite stamps_insert by done. case_decide; [|done].
      eapply Forall_le_snoc; [apply Tq|done]. }
    assert (Wa1 : forall i' c', visits_ordered
              (stamps (<[i:=<[index:=stamped q_i index t]> q_i]> (s_q s)) i' c')
              (stamps (s_a s) i' c')).
    { intros i' c'. rewrite stamps_insert by done. case_decide as Hd; [|done].
      destruct Hd as [-> ->]. apply visits_ordered_snoc_early; [done|].
      by eapply invariant_lengths. }
    destruct (i =? 0).
    + apply bind_Ret in H as (gap & Hgap & [= <-]).
      apply expovariate_nonneg in Hgap; [|done..].
      split; [|done]. split; proj_simpl; try done.
      * destruct (Qlt_bool _ _); [|done]. by apply put_ascending.
      * destruct (Qlt_bool _ _); [|done]. apply Forall_put. split; [|done].
        simpl. lra.
    + injection H as <-. split; [|done]. split; proj_simpl; done.
  - apply bind_Ret in H as (a_i & Ha%getitem_Ret & H).
    apply bind_Ret in H as (mu & Hm%getitem_Ret & H).
    apply bind_Ret in H as (duration & Hdur & [= <-]).
    assert (0 < mu)%Q.
    { rewrite Forall_forall in Hmu. apply Hmu. by eapply list_elem_of_lookup_2. }
    apply expovariate_nonneg in Hdur; [|done..].
    split; [|done]. split; proj_simpl; try done.
    + by apply put_ascending.
    + apply Forall_put. split; [|done]. simpl. lra.
    + intros i' c'. rewrite stamps_insert by done. case_decide; [|done].
      eapply Forall_le_snoc; [apply Ta|done].
    + intros i' c'. rewrite stamps_insert by done. case_decide as Hd; [|done].
      destruct Hd as [-> ->]. by apply visits_ordered_snoc_late.
    + intros i' c'. rewrite stamps_insert by done. case_decide as Hd; [|done].
      destruct Hd as [-> ->]. apply visits_ordered_snoc_early; [done|].
      by eapply invariant_lengths.
  - apply bind_Ret in H as (queue_i & _ & H).
    apply bind_Ret in H as (d_i & Hd%getitem_Ret & H).
    set (queue_i' := if 0 <? length queue_i then tail queue_i else queue_i) in *.
    assert (E1 : ascending match queue_i' with
                           | [] => rest
                           | c' :: _ => pq.put (t, (ARRIVAL, c', i)) rest
                           end /\
                 Forall (fun x => (t <= x.1)%Q)
                   match queue_i' with
                   | [] => rest
                   | c' :: _ => pq.put (t, (ARRIVAL, c', i)) rest
                   end).
    { destruct queue_i'; [done|]. apply Hput; try done. simpl. lra. }
    destruct E1 as [E1 E2].
    assert (Td1 : forall i' c', Forall (fun x => (x <= t)%Q)
              (stamps (<[i:=<[c:=stamped d_i c t]> d_i]> (s_d s)) i' c')).
    { intros i' c'. rewrite stamps_insert by done. case_decide; [|done].
      eapply Forall_le_snoc; [apply Td|done]. }
    assert (Se1 : forall i' c', visits_ordered (stamps (s_a s) i' c')
              (stamps (<[i:=<[c:=stamped d_i c t]> d_i]> (s_d s)) i' c')).
    { intros i' c'. rewrite stamps_insert by done. case_decide as Hdd; [|done].
      destruct Hdd as [-> ->]. by apply visits_ordered_snoc_late. }
    destruct (Z.of_nat i =? n - 1)%Z.
    + injection H as <-. split; [|done]. split; proj_simpl; done.
    + apply bind_Ret in H as ([next_server rng] & _ & [= <-]).
      split; [|done]. split; proj_simpl; try done.
      * by apply put_ascending.
      * apply Forall_put. split; [|done]. simpl. lra.
Qed.

Lemma initial_timed s :
  initial_state n lambda_arrival_time O = Ret s -> timed s.
Proof.
  intros H. destruct Hfit as (Hlam & Hmu & Hdraw). unfold initial_state in H.
  apply bind_Ret in H as (first & Hf & [= <-]).
  apply expovariate_nonneg in Hf; [|done..].
  split; proj_simpl.
  - repeat constructor.
  - apply Forall_singleton. simpl. lra.
  - intros i c. unfold stamps. by rewrite slots_replicate.
  - intros i c. unfold stamps. by rewrite slots_replicate.
  - intros i c. unfold stamps. by rewrite slots_replicate.
  - intros i c j x y. unfold stamps. by rewrite slots_replicate.
  - intros i c j x y. unfold stamps. by rewrite slots_replicate.
Qed.

Lemma passes_timed k : forall s s',
  (1 <= n)%Z -> invariant (Z.to_nat n) s -> timed s ->
  passes time n lambda_arrival_time mu_wait_time p finish O k s = Ret s' ->
  timed s' /\ (s_t s <= s_t s')%Q.
Proof.
  induction k as [|k IH]; simpl; intros s s' Hn Hinv Ht H.
  - injection H as <-. split; [done|lra].
  - destruct (loop_guard time finish s); [|injection H as <-; split; [done|lra]].
    apply bind_Ret in H as (s1 & H1 & H).
    destruct (loop_body_timed _ _ Hinv Ht H1) as [Ht1 Hle].
    destruct (IH s1 s' Hn) as [Ht' Hle']; try done.
    { by eapply loop_body_invariant. }
    split; [done|lra].
Qed.

Lemma snapshot_timed k s :
  snapshot time n lambda_arrival_time mu_wait_time p finish O k = Ret s ->
  timed s.
Proof.
  intros H. destruct (Z_lt_le_dec n 1) as [Hn|Hn].
  - apply bind_Ret in H as (s0 & H0 & H).
    pose proof (initial_stillborn _ _ _ _ Hn H0) as Hs.
    rewrite (passes_stillborn _ _ _ _ _ _ _ _ _ _ Hs H). by apply initial_timed.
  - apply bind_Ret in H as (s0 & H0 & H).
    eapply (passes_timed k s0 s); try done.
    + by eapply initial_invariant.
    + by apply initial_timed.
Qed.
End timing.

(** ** Forward routing *)

Section forward.
Variables (time : Q) (n : Z) (lambda_arrival_time : Q).
Variables (mu_wait_time p : list Q) (finish : bool).
Variable O : Oracle.
Hypothesis Hn : (1 <= n)%Z.
Hypothesis Hfwd : always_forward p O.

Lemma loop_body_relayed s s' :
  invariant (Z.to_nat n) s -> relayed (Z.to_nat n) s ->
  loop_body time n lambda_arrival_time mu_wait_time p O s = Ret s' ->
  relayed (Z.to_nat n) s'.
Proof.
  intros [_ _ _ _ St _ _ _ _ _] Hr H. unfold relayed in *.
  destruct (s_events s) as [|[t [[k c] i]] rest] eqn:He.
  { unfold loop_body in H. by rewrite He in H. }
  unfold loop_body in H. rewrite He in H. simpl in H.
  apply Forall_cons in St as [Hi _]. unfold ev_station in Hi; simpl in Hi.
  assert (Hr' : forall j c', S j < Z.to_nat n ->
            (if entering (S j) c' (t, (k, c, i)) then 1 else 0)
            + count_ev (entering (S j) c') rest
            + length (stamps (s_q s) (S j) c') = length (stamps (s_d s) j c'))
    by exact Hr.
  clear Hr.
  destruct k.
  - apply bind_Ret in H as (q_i & Hq%getitem_Ret & H).
    apply bind_Ret in H as (queue_i & _ & H).
    set (index := if negb (i =? 0) then c else s_n_a s) in *.
    assert (E : forall j c', count_ev (entering (S j) c')
                  (if length queue_i =? 0
                   then pq.put (t, (ARRIVAL, index, i)) rest else rest)
                = count_ev (entering (S j) c') rest).
    { intros. destruct (length queue_i =? 0); [|done]. by rewrite count_ev_put. }
    destruct (i =? 0) eqn:Hi0.
    + apply Nat.eqb_eq in Hi0. subst i.
      apply bind_Ret in H as (gap & _ & [= <-]). proj_simpl.
      intros j c' Hj. specialize (Hr' j c' Hj).
      rewrite stamps_insert by done. rewrite decide_False by lia.
      assert (count_ev (entering (S j) c')
                (if Qlt_bool (t + gap) time
                 then pq.put ((t + gap)%Q, (ASIGNED, 0, 0))
                        (if length queue_i =? 0
                         then pq.put (t, (ARRIVAL, index, 0)) rest else rest)
                 else if length queue_i =? 0
                      then pq.put (t, (ARRIVAL, index, 0)) rest else rest)
              = count_ev (entering (S j) c') rest) as ->.
      { destruct (Qlt_bool _ _); [rewrite count_ev_put|]; by rewrite E. }
      exact Hr'.
    + apply Nat.eqb_neq in Hi0. injection H as <-. proj_simpl.
      subst index. simpl.
      intros j c' Hj. specialize (Hr' j c' Hj). rewrite E.
      rewrite stamps_insert by done.
      change (entering (S j) c' (t, (ASIGNED, c, i)))
        with ((i =? S j) && (c =? c')) in Hr'.
      destruct (decide (S j = i /\ c' = c)) as [[<- ->]|Hne].
      * rewrite !Nat.eqb_refl in Hr'. simpl in Hr'. rewrite length_app. simpl. lia.
      * destruct (i =? S j) eqn:E1; [destruct (c =? c') eqn:E2|]; simpl in Hr'; try lia.
        apply Nat.eqb_eq in E1, E2. subst. tauto.
  - apply bind_Ret in H as (a_i & _ & H).
    apply bind_Ret in H as (mu & _ & H).
    apply bind_Ret in H as (duration & _ & [= <-]). proj_simpl.
    intros j c' Hj. rewrite count_ev_put. exact (Hr' j c' Hj).
  - apply bind_Ret in H as (queue_i & _ & H).
    apply bind_Ret in H as (d_i & Hd%getitem_Ret & H).
    set (queue_i' := if 0 <? length queue_i then tail queue_i else queue_i) in *.
    assert (E : forall j c', count_ev (entering (S j) c')
                  match queue_i' with
                  | [] => rest
                  | c'' :: _ => pq.put (t, (ARRIVAL, c'', i)) rest
                  end
                = count_ev (entering (S j) c') rest).
    { intros. destruct queue_i'; [done|]. by rewrite count_ev_put. }
    destruct (Z.of_nat i =? n - 1)%Z eqn:Hlast.
    + apply Z.eqb_eq in Hlast. injection H as <-. proj_simpl.
      intros j c' Hj. rewrite E. rewrite stamps_insert by done.
      rewrite decide_False by lia. exact (Hr' j c' Hj).
    + apply Z.eqb_neq in Hlast.
      apply bind_Ret in H as ([next_server rng] & Hnext & [= <-]). proj_simpl.
      assert (next_server = S i) as ->.
      { destruct (i =? 0); [injection Hnext as <- _; lia|].
        apply bind_Ret in Hnext as (p_i & Hp%getitem_Ret & Hnext).
        rewrite (Hfwd _ _ _ Hp) in Hnext. injection Hnext as <- _. lia. }
      intros j c' Hj. specialize (Hr' j c' Hj). simpl in Hr'.
      rewrite count_ev_put, E. rewrite stamps_insert by done.
      change (entering (S j) c' (t, (ASIGNED, c, S i)))
        with ((S i =? S j) && (c =? c')).
      change (S i =? S j) with (i =? j).
      destruct (decide (j = i /\ c' = c)) as [[-> ->]|Hne].
      * rewrite !Nat.eqb_refl. simpl. rewrite length_app. simpl. lia.
      * destruct (i =? j) eqn:E1; [destruct (c =? c') eqn:E2|]; simpl; try lia.
        apply Nat.eqb_eq in E1, E2. subst. tauto.
Qed.

Lemma initial_relayed s :
  initial_state n lambda_arrival_time O = Ret s -> relayed (Z.to_nat n) s.
Proof.
  intros H. unfold initial_state in H.
  apply bind_Ret in H as (first & _ & [= <-]).
  intros i c _. proj_simpl. unfold stamps. by rewrite !slots_replicate.
Qed.

Lemma passes_relayed k : forall s s',
  invariant (Z.to_nat n) s -> relayed (Z.to_nat n) s ->
  passes time n lambda_arrival_time mu_wait_time p finish O k s = Ret s' ->
  relayed (Z.to_nat n) s'.
Proof.
  induction k as [|k IH]; simpl; intros s s' Hinv Hr H.
  - by injection H as <-.
  - destruct (loop_guard time finish s); [|by injection H as <-].
    apply bind_Ret in H as (s1 & H1 & H).
    eapply (IH s1); [|by eapply loop_body_relayed|done].
    by eapply loop_body_invariant.
Qed.
End forward.

Lemma stamps_beyond (m : list (gmap nat (list Q))) i c :
  length m <= i -> stamps m i c = [].
Proof.
  intros Hi. unfold stamps. rewrite list_lookup_total_alt.
  by rewrite lookup_ge_None_2.
Qed.

(** X5: in a run where no feedback fires (every uniform draw exceeds the
    feedback probability), a client enters the queue of a station at most
    once, and it has no more entries into station [i + 1] than
    departures from station [i]. *)
Theorem forward_visits_once (time : Q) (n : Z) (lambda_arrival_time : Q)
  (mu_wait_time p : list Q) (finish : bool) (O : Oracle) (k : nat) (s : State)
  (i c : nat) :
  always_forward p O ->
  snapshot time n lambda_arrival_time mu_wait_time p finish O k = Ret s ->
  length (stamps (s_q s) i c) <= 1 /\
  length (stamps (s_q s) (S i) c) <= length (stamps (s_d s) i c).
Proof.
  intros Hfwd H. destruct (Z_lt_le_dec n 1) as [Hn|Hn].
  - apply snapshot_stillborn in H as (-> & _ & -> & _); [|done].
    rewrite !stamps_nil. simpl. lia.
  - pose proof (snapshot_numbered _ _ _ _ _ _ _ _ _ H) as Hnum.
    pose proof (snapshot_invariant _ _ _ _ _ _ _ _ _ Hn H) as Hinv.
    apply bind_Ret in H as (s0 & H0 & H).
    pose proof (passes_relayed _ _ _ _ _ _ _ Hn Hfwd _ _ _
                  (initial_invariant _ _ _ _ Hn H0) (initial_relayed _ _ _ _ H0) H)
      as Hr.
    assert (Hnext : forall j, length (stamps (s_q s) (S j) c)
                              <= length (stamps (s_d s) j c)).
    { intros j. destruct (decide (S j < Z.to_nat n)) as [Hj|Hj].
      - specialize (Hr j c Hj). lia.
      - rewrite stamps_beyond; [simpl; lia|].
        destruct Hinv as [-> _ _ _ _ _ _ _ _ _]. lia. }
    split; [|apply Hnext].
    induction i as [|i IH].
    + destruct Hnum as [_ _ Nq _ _ Nf].
      destruct (decide (c < s_n_a s)); [by rewrite Nf|]. rewrite Nq by lia. simpl. lia.
    + pose proof (invariant_lengths n s i c Hinv). specialize (Hnext i). lia.
Qed.

(** ** The metrics reducer *)

Section reducer.
Variables (t : Q) (n : Z) (n_a n_d : nat).
Variables (q a d : list (gmap nat (list Q))).

Lemma client_body_view s w u st c :
  client_body t n n_d q a d s (w, u, st) c
  = (w ++ (if seen q s c then [wait_of t q a s c] else []),
     u ++ (if served q a d s c then [use_of a d s c] else []),
     alter (system_time_step n n_d q a d s c) c st).
Proof.
  unfold client_body, system_time_step, served, seen, wait_of, use_of.
  fold (stamps q s c). fold (stamps a s c). fold (stamps d s c).
  destruct (length (stamps q s c) =? 0); simpl.
  { rewrite !app_nil_r. by rewrite list_alter_id. }
  destruct (length (stamps a s c) =? 0); simpl.
  { rewrite !app_nil_r. by rewrite list_alter_id. }
  destruct (length (stamps d s c) =? 0); simpl.
  { rewrite !app_nil_r. by rewrite list_alter_id. }
  f_equal.
  destruct ((s =? 0) && (c <? n_d)), ((Z.of_nat s =? n - 1)%Z && (c <? n_d)); simpl.
  - by rewrite list_alter_alter_eq.
  - done.
  - done.
  - by rewrite list_alter_id.
Qed.

Lemma clients_fold s m : forall w u st,
  foldl (client_body t n n_d q a d s) (w, u, st) (seq 0 m)
  = (w ++ map (wait_of t q a s) (List.filter (seen q s) (seq 0 m)),
     u ++ map (use_of a d s) (List.filter (served q a d s) (seq 0 m)),
     foldl (fun st c => alter (system_time_step n n_d q a d s c) c st) st
       (seq 0 m)).
Proof.
  induction m as [|m IH]; intros w u st.
  - simpl. by rewrite !app_nil_r.
  - rewrite seq_S. rewrite !foldl_app. simpl. rewrite IH, client_body_view.
    rewrite !List.filter_app, !List.map_app. simpl.
    destruct (seen q s m), (served q a d s m); simpl;
      by rewrite ?app_nil_r, <- ?app_assoc.
Qed.

Lemma alter_fold (f : nat -> Q -> Q) m : forall (st : list Q) c,
  foldl (fun st c => alter (f c) c st) st (seq 0 m) !! c
  = if c <? m then f c <$> st !! c else st !! c.
Proof.
  induction m as [|m IH]; intros st c; [done|].
  rewrite seq_S, foldl_app. simpl.
  destruct (decide (c = m)) as [->|Hne].
  - rewrite list_lookup_alter_eq, IH.
    rewrite Nat.ltb_irrefl. by rewrite (proj2 (Nat.ltb_lt m (S m))) by lia.
  - rewrite list_lookup_alter_ne by done. rewrite IH.
    destruct (c <? m) eqn:E1, (c <? S m) eqn:E2; try done.
    + apply Nat.ltb_lt in E1. apply Nat.ltb_ge in E2. lia.
    + apply Nat.ltb_ge in E1. apply Nat.ltb_lt in E2. lia.
Qed.

Lemma alter_fold_length (f : nat -> Q -> Q) m : forall (st : list Q),
  length (foldl (fun st c => alter (f c) c st) st (seq 0 m)) = length st.
Proof.
  induction m as [|m IH]; intros st; [done|].
  rewrite seq_S, foldl_app. simpl. by rewrite length_alter, IH.
Qed.

Lemma stations_fold M : forall st0,
  foldl (station_body t n n_a n_d q a d) ([], [], st0) (seq 0 M)
  = (map (fun s => np.mean (waits t n_a q a s)) (seq 0 M),
     map (fun s => np.mean (uses n_a q a d s)) (seq 0 M),
     foldl (fun st s =>
              foldl (fun st c => alter (system_time_step n n_d q a d s c) c st)
                st (seq 0 n_a))
       st0 (seq 0 M)).
Proof.
  induction M as [|M IH]; intros st0; [done|].
  rewrite seq_S, !foldl_app, !List.map_app. simpl. rewrite IH.
  unfold station_body. rewrite clients_fold. done.
Qed.

Lemma system_time_entry M : forall (st0 : list Q) c x0,
  st0 !! c = Some x0 -> c < n_a ->
  foldl (fun st s =>
           foldl (fun st c => alter (system_time_step n n_d q a d s c) c st)
             st (seq 0 n_a))
    st0 (seq 0 M) !! c
  = Some (foldl (fun x s => system_time_step n n_d q a d s c x) x0 (seq 0 M)).
Proof.
  induction M as [|M IH]; intros st0 c x0 H0 Hc; [done|].
  rewrite seq_S, !foldl_app. simpl. rewrite alter_fold.
  rewrite (proj2 (Nat.ltb_lt c n_a)) by done. by rewrite (IH _ _ _ H0 Hc).
Qed.

Lemma system_time_length M : forall (st0 : list Q),
  length (foldl (fun st s =>
            foldl (fun st c => alter (system_time_step n n_d q a d s c) c st)
              st (seq 0 n_a))
          st0 (seq 0 M)) = length st0.
Proof.
  induction M as [|M IH]; intros st0; [done|].
  rewrite seq_S, !foldl_app. simpl. by rewrite alter_fold_length, IH.
Qed.

Lemma reduce_view :
  reduce t n n_a n_d q a d
  = mkMetrics t n_d
      (map (fun s => np.mean (waits t n_a q a s)) (seq 0 (Z.to_nat n)))
      (map (fun s => np.mean (uses n_a q a d s)) (seq 0 (Z.to_nat n)))
      (foldl (fun st s =>
                foldl (fun st c => alter (system_time_step n n_d q a d s c) c st)
                  st (seq 0 n_a))
         (replicate n_a 0%Q) (seq 0 (Z.to_nat n))).
Proof. unfold reduce. by rewrite stations_fold. Qed.
End reducer.

Section reducer_properties.
Variables (t : Q) (n : Z) (n_a n_d : nat).
Variables (q a d : list (gmap nat (list Q))).

Lemma step_beyond s c x :
  n_d <= c -> system_time_step n n_d q a d s c x = x.
Proof.
  intros Hc. unfold system_time_step.
  rewrite (proj2 (Nat.ltb_ge c n_d)) by done. rewrite !andb_false_r.
  by destruct (served q a d s c).
Qed.

Lemma step_inner s c x :
  s <> 0 -> Z.of_nat s <> (n - 1)%Z -> system_time_step n n_d q a d s c x = x.
Proof.
  intros H0 Hl. unfold system_time_step.
  rewrite (proj2 (Nat.eqb_neq s 0)) by done.
  rewrite (proj2 (Z.eqb_neq (Z.of_nat s) (n - 1))) by done. simpl.
  by destruct (served q a d s c).
Qed.

Lemma fold_steps_id (l : list nat) c x :
  Forall (fun s => forall y, system_time_step n n_d q a d s c y = y) l ->
  foldl (fun x s => system_time_step n n_d q a d s c x) x l = x.
Proof.
  intros Hl. revert x. induction Hl as [|s l Hs _ IH]; intros x; [done|].
  simpl. by rewrite Hs, IH.
Qed.

Lemma step_ends s c x :
  served q a d s c = true -> c < n_d ->
  system_time_step n n_d q a d s c x
  = (let x := if s =? 0 then (x - default 0 (head (stamps q s c)))%Q else x in
     if (Z.of_nat s =? n - 1)%Z then (x + default 0 (last (stamps d s c)))%Q
     else x).
Proof.
  intros Hs Hc. apply Nat.ltb_lt in Hc. unfold system_time_step.
  rewrite Hs, Hc. by rewrite !andb_true_r.
Qed.

Lemma system_time_fold_complete c :
  (1 <= n)%Z -> c < n_d ->
  served q a d 0 c = true -> served q a d (Z.to_nat n - 1) c = true ->
  foldl (fun x s => system_time_step n n_d q a d s c x) 0%Q (seq 0 (Z.to_nat n))
  = (0 - default 0 (head (stamps q 0 c))
     + default 0 (last (stamps d (Z.to_nat n - 1) c)))%Q.
Proof.
  intros Hn Hc H0 Hl.
  destruct (Z.to_nat n) as [|[|k]] eqn:EN; [lia| |].
  - cbn [seq foldl]. rewrite step_ends by done.
    assert ((Z.of_nat 0 =? n - 1)%Z = true) as -> by (apply Z.eqb_eq; lia).
    done.
  - replace (S (S k) - 1) with (S k) in * by lia.
    rewrite seq_S. change (seq 0 (S k)) with (0 :: seq 1 k).
    rewrite foldl_app. cbn [foldl]. rewrite fold_steps_id.
    + rewrite !step_ends by done.
      assert ((Z.of_nat 0 =? n - 1)%Z = false) as -> by (apply Z.eqb_neq; lia).
      assert ((Z.of_nat (0 + S k) =? n - 1)%Z = true) as ->
        by (apply Z.eqb_eq; lia).
      done.
    + apply Forall_forall. intros s Hs y. apply list_elem_of_In, in_seq in Hs.
      apply step_inner; lia.
Qed.

(** X11: the reducer returns one mean wait and one mean use time per
    station, and one system time per arrival. *)
Theorem reduce_shape :
  length (m_wait_time (reduce t n n_a n_d q a d)) = Z.to_nat n /\
  length (m_use_time (reduce t n n_a n_d q a d)) = Z.to_nat n /\
  length (m_system_time (reduce t n n_a n_d q a d)) = n_a.
Proof.
  rewrite reduce_view. simpl.
  rewrite !List.length_map, !length_seq, system_time_length, length_replicate.
  done.
Qed.

(** X12: the entry of [system_time] of a client whose number is not below
    the departure counter is 0, whatever the trace holds for it. *)
Theorem system_time_beyond_departures c :
  n_d <= c -> c < n_a ->
  m_system_time (reduce t n n_a n_d q a d) !! c = Some 0%Q.
Proof.
  intros Hd Ha. rewrite reduce_view. simpl.
  rewrite (system_time_entry n n_a n_d q a d _ _ c 0%Q);
    [|by apply lookup_replicate_2|done].
  f_equal. apply fold_steps_id, Forall_forall. intros s _ y. by apply step_beyond.
Qed.

(** X13: for a client whose number is below the departure counter and that
    has a queue entry, a service start and a departure at station 0 and at
    the last station, the system time is 0, minus its first queue-entry
    time at station 0, plus its last departure time at the last station. *)
Theorem system_time_of_departed c :
  (1 <= n)%Z -> c < n_a -> c < n_d ->
  served q a d 0 c = true -> served q a d (Z.to_nat n - 1) c = true ->
  m_system_time (reduce t n n_a n_d q a d) !! c
  = Some (0 - default 0 (head (stamps q 0 c))
          + default 0 (last (stamps d (Z.to_nat n - 1) c)))%Q.
Proof.
  intros Hn Ha Hd H0 Hl. rewrite reduce_view. simpl.
  rewrite (system_time_entry n n_a n_d q a d _ _ c 0%Q);
    [|by apply lookup_replicate_2|done].
  by rewrite system_time_fold_complete.
Qed.

Lemma mean_nan (l : list Q) : np.mean l = None <-> l = [].
Proof. by destruct l. Qed.

Lemma map_filter_nil {A} (f : nat -> A) (g : nat -> bool) (l : list nat) :
  map f (List.filter g l) = [] <-> forall c, In c l -> g c = false.
Proof.
  induction l as [|x l IH]; simpl; [tauto|].
  destruct (g x) eqn:E; simpl.
  - split; [done|]. intros H. specialize (H x (or_introl eq_refl)). congruence.
  - rewrite IH. split.
    + intros H c [<-|Hc]; [done|by apply H].
    + intros H c Hc. apply H. by right.
Qed.

(** X14: the mean wait of a station is the mean over the clients with a
    queue entry there (the wait of a client not yet served being counted
    up to the end of the run), its mean use time is the mean over the
    clients with a queue entry, a service start and a departure there,
    and the mean wait is [nan] exactly when no client entered the queue
    of the station. *)
Theorem station_means s :
  s < Z.to_nat n ->
  m_wait_time (reduce t n n_a n_d q a d) !! s = Some (np.mean (waits t n_a q a s)) /\
  m_use_time (reduce t n n_a n_d q a d) !! s = Some (np.mean (uses n_a q a d s)) /\
  (m_wait_time (reduce t n n_a n_d q a d) !! s = Some None <->
   forall c, c < n_a -> stamps q s c = []).
Proof.
  intros Hs. rewrite reduce_view. simpl.
  assert (Hl : forall (f : nat -> option Q),
            map f (seq 0 (Z.to_nat n)) !! s = Some (f s)).
  { intros f. change (map f (seq 0 (Z.to_nat n))) with (f <$> seq 0 (Z.to_nat n)).
    rewrite list_lookup_fmap, lookup_seq_lt by done. done. }
  rewrite !Hl. split; [done|]. split; [done|].
  split.
  - intros [= H]. apply mean_nan in H. unfold waits in H.
    rewrite map_filter_nil in H. intros c Hc.
    specialize (H c). rewrite in_seq in H. specialize (H ltac:(lia)).
    unfold seen in H. apply negb_false_iff, Nat.eqb_eq in H.
    by destruct (stamps q s c).
  - intros H. f_equal. apply mean_nan. unfold waits. apply map_filter_nil.
    intros c Hc. apply in_seq in Hc. unfold seen. rewrite H by lia. done.
Qed.
End reducer_properties.

(** ** Drained runs *)

Lemma idle_queues (n : Z) s i :
  invariant (Z.to_nat n) s -> s_events s = [] -> s_queue s !!! i = [].
Proof.
  intros [_ _ _ _ _ Sv _ _ _ _] He. specialize (Sv i). rewrite He in Sv.
  simpl in Sv. by destruct (s_queue s !!! i).
Qed.

Lemma drained_records (n : Z) s i c :
  invariant (Z.to_nat n) s -> s_events s = [] ->
  length (stamps (s_q s) i c) = length (stamps (s_d s) i c) /\
  length (stamps (s_a s) i c) = length (stamps (s_d s) i c).
Proof.
  intros Hinv He. pose proof (idle_queues n s i Hinv He) as Hq.
  destruct Hinv as [_ _ _ _ _ _ _ Qe Ss _].
  specialize (Qe i c). specialize (Ss i c). rewrite Hq in Qe. rewrite He in Ss.
  simpl in *. unfold occ in Qe. simpl in Qe. lia.
Qed.

Lemma singleton_length (l : list Q) :
  length l = 1 -> exists x, l = [x].
Proof. destruct l as [|x [|y l]]; try done. by exists x. Qed.

(** X15: in a run drained to completion where no feedback fires, every
    client that arrived has one queue entry at station 0 and one
    departure from the last station, and the reducer gives it the system
    time 0 - entry + departure. *)
Theorem drained_system_times (time : Q) (n : Z) (lambda_arrival_time : Q)
  (mu_wait_time p : list Q) (O : Oracle) (fuel : nat) (s : State) (c : nat) :
  always_forward p O -> (1 <= n)%Z ->
  servers_simulation time n lambda_arrival_time mu_wait_time p true O fuel = Ret s ->
  c < s_n_a s ->
  exists m entered left,
    metrics_by_simulation time n lambda_arrival_time mu_wait_time p true O fuel
    = Ret m /\
    stamps (s_q s) 0 c = [entered] /\
    stamps (s_d s) (Z.to_nat n - 1) c = [left] /\
    m_system_time m !! c = Some (0 - entered + left)%Q.
Proof.
  intros Hfwd Hn H Hc.
  pose proof (feedback_free_lossless _ _ _ _ _ _ _ _ Hfwd H) as Hnd.
  pose proof (servers_simulation_snapshot _ _ _ _ _ _ _ _ _ H) as Hsnap.
  pose proof (snapshot_numbered _ _ _ _ _ _ _ _ _ Hsnap) as Hnum.
  pose proof (snapshot_invariant _ _ _ _ _ _ _ _ _ Hn Hsnap) as Hinv.
  assert (He : s_events s = []).
  { apply bind_Ret in H as (s0 & _ & H).
    apply while_loop_exit in H. unfold loop_guard in H. simpl in H.
    apply negb_false_iff in H. by destruct (s_events s). }
  assert (Hr : relayed (Z.to_nat n) s).
  { apply bind_Ret in Hsnap as (s0 & H0 & Hp).
    eapply (passes_relayed _ _ _ _ _ _ _ Hn Hfwd); [| |exact Hp].
    - by eapply initial_invariant.
    - by eapply initial_relayed. }
  assert (Hall : forall i, i < Z.to_nat n -> length (stamps (s_q s) i c) = 1).
  { induction i as [|i IH]; intros Hi.
    - destruct Hnum as [_ _ _ _ _ Nf]. by apply Nf.
    - specialize (Hr i c Hi). rewrite He in Hr. simpl in Hr.
      destruct (drained_records n s i c Hinv He) as [Hqd _].
      rewrite Hr, <- Hqd. apply IH. lia. }
  assert (Hserved : forall i, i < Z.to_nat n ->
            served (s_q s) (s_a s) (s_d s) i c = true).
  { intros i Hi. destruct (drained_records n s i c Hinv He) as [Hqd Had].
    specialize (Hall i Hi). unfold served, seen.
    rewrite Had, <- Hqd, Hall. done. }
  destruct (singleton_length (stamps (s_q s) 0 c)) as [entered Hent].
  { apply Hall. lia. }
  destruct (singleton_length (stamps (s_d s) (Z.to_nat n - 1) c)) as [left Hleft].
  { destruct (drained_records n s (Z.to_nat n - 1) c Hinv He) as [Hqd _].
    rewrite <- Hqd. apply Hall. lia. }
  exists (reduce (s_t s) n (s_n_a s) (s_n_d s) (s_q s) (s_a s) (s_d s)),
         entered, left.
  split; [unfold metrics_by_simulation; by rewrite H|].
  split; [done|]. split; [done|].
  rewrite reduce_view. simpl.
  rewrite (system_time_entry n (s_n_a s) (s_n_d s) (s_q s) (s_a s) (s_d s) _ _ c 0%Q);
    [|by apply lookup_replicate_2|done].
  rewrite system_time_fold_complete; [|done|lia|apply Hserved; lia..].
  by rewrite Hent, Hleft.
Qed.

(** ** Passes of the engine *)

Section engine.
Variables (time : Q) (n : Z) (lambda_arrival_time : Q).
Variables (mu_wait_time p : list Q) (finish : bool).
Variable O : Oracle.

(** X2: with a positive arrival rate, positive service rates and draws
    that are not negative, the clock of a run starts at 0 and never goes
    back: in every state it is at least 0, no pending event lies before
    it, and a further pass of the loop does not decrease it. *)
Theorem clock_never_goes_back k s :
  forward_in_time lambda_arrival_time mu_wait_time O ->
  snapshot time n lambda_arrival_time mu_wait_time p finish O k = Ret s ->
  (0 <= s_t s)%Q /\
  Forall (fun x => (s_t s <= x.1)%Q) (s_events s) /\
  forall s', loop_body time n lambda_arrival_time mu_wait_time p O s = Ret s' ->
             (s_t s <= s_t s')%Q.
Proof.
  intros Hfit H.
  pose proof (snapshot_timed _ _ _ _ _ _ _ Hfit _ _ H) as Ht.
  split; [|split].
  - apply bind_Ret in H as (s0 & H0 & H).
    assert (Ht0 : s_t s0 = 0%Q).
    { unfold initial_state in H0. by apply bind_Ret in H0 as (? & _ & [= <-]). }
    destruct (Z_lt_le_dec n 1) as [Hn|Hn].
    + pose proof (initial_stillborn _ _ _ _ Hn H0) as Hs.
      rewrite (passes_stillborn _ _ _ _ _ _ _ _ _ _ Hs H), Ht0. lra.
    + destruct (passes_timed time n lambda_arrival_time mu_wait_time p finish O
                  Hfit k s0 s Hn) as [_ Hle]; try done.
      * by eapply initial_invariant.
      * by eapply initial_timed.
      * rewrite Ht0 in Hle. lra.
  - by destruct Ht.
  - intros s' Hs'. destruct (Z_lt_le_dec n 1) as [Hn|Hn].
    + apply snapshot_stillborn in H; [|done].
      by rewrite (stillborn_raises _ _ _ _ _ _ _ H) in Hs'.
    + apply snapshot_invariant in H; [|done].
      by destruct (loop_body_timed time n lambda_arrival_time mu_wait_time p O
                     Hfit _ _ H Ht Hs').
Qed.

(** X3: under the same conditions, in every state of a run and for every
    station and client, the j-th queue entry is not after the j-th
    service start, which is not after the j-th departure, and no
    departure lies after the clock. *)
Theorem visits_in_order k s i c :
  forward_in_time lambda_arrival_time mu_wait_time O ->
  snapshot time n lambda_arrival_time mu_wait_time p finish O k = Ret s ->
  visits_ordered (stamps (s_q s) i c) (stamps (s_a s) i c) /\
  visits_ordered (stamps (s_a s) i c) (stamps (s_d s) i c) /\
  Forall (fun x => (x <= s_t s)%Q) (stamps (s_d s) i c).
Proof.
  intros Hfit H.
  destruct (snapshot_timed _ _ _ _ _ _ _ Hfit _ _ H) as [_ _ _ _ Td Wa Se].
  auto.
Qed.

(** X4: in every state of every run a station has at most one service
    under way (one pending [ARRIVAL] or [FINISH] event), and it has none
    exactly when its queue is empty. *)
Theorem one_service_per_station k s i :
  snapshot time n lambda_arrival_time mu_wait_time p finish O k = Ret s ->
  count_ev (serving i) (s_events s) <= 1 /\
  (count_ev (serving i) (s_events s) = 0 <-> s_queue s !!! i = []).
Proof.
  intros H. destruct (Z_lt_le_dec n 1) as [Hn|Hn].
  - apply snapshot_stillborn in H as (_ & _ & _ & -> & _ & _ & t & ->); [|done].
    simpl. split; [lia|]. done.
  - apply snapshot_invariant in H as [_ _ _ _ _ Sv _ _ _ _]; [|done].
    rewrite (Sv i). destruct (s_queue s !!! i); simpl; split; try lia; done.
Qed.

(** X6: in a run where no feedback fires, in every state the clients that
    arrived are the clients that left the last station, the clients in
    the station queues, and the clients on their way to the next station:
    [n_a = n_d + sum of the queue lengths + pending ASIGNED events of
    stations other than 0]. *)
Theorem forward_conservation k s :
  always_forward p O ->
  snapshot time n lambda_arrival_time mu_wait_time p finish O k = Ret s ->
  s_n_a s = s_n_d s + sum_list_with length (s_queue s)
            + count_ev in_transit (s_events s).
Proof.
  intros Hfwd H. destruct (Z_lt_le_dec n 1) as [Hn|Hn].
  - apply snapshot_stillborn in H as (_ & _ & _ & -> & -> & -> & t & ->); done.
  - apply bind_Ret in H as (s0 & H0 & H).
    apply (passes_balance time n lambda_arrival_time mu_wait_time p finish O
             Hn Hfwd k s0 s); [|  |done].
    + by eapply initial_invariant.
    + unfold initial_state in H0. apply bind_Ret in H0 as (first & _ & [= <-]).
      unfold accounted. proj_simpl. by rewrite sum_lengths_replicate.
Qed.

(** X7: a pass that handles the [FINISH] of client [c] at a station [i]
    other than the last puts exactly one [ASIGNED] event, for the same
    client at the same time, at a station that is [i + 1] or lies before
    [i]. From station 0 the client always goes to station 1 and no draw
    is made; from another station it goes forward exactly when the
    uniform draw is greater than [p[i]]. *)
Theorem routing_rule s s' t c i rest :
  s_events s = (t, (FINISH, c, i)) :: rest ->
  Z.of_nat i <> (n - 1)%Z ->
  loop_body time n lambda_arrival_time mu_wait_time p O s = Ret s' ->
  exists next_server,
    (t, (ASIGNED, c, next_server)) ∈ s_events s' /\
    count_ev is_assigned (s_events s') = S (count_ev is_assigned rest) /\
    (next_server = i + 1 \/ next_server < i) /\
    (i = 0 -> next_server = 1 /\ s_rng s' = s_rng s) /\
    (i <> 0 -> forall p_i, p !! i = Some p_i ->
       next_server = i + 1 <-> Qlt_bool p_i (unif_draw O (s_rng s)) = true).
Proof.
  intros He Hlast H. unfold loop_body in H. rewrite He in H. simpl in H.
  apply bind_Ret in H as (queue_i & _ & H).
  apply bind_Ret in H as (d_i & _ & H).
  apply Z.eqb_neq in Hlast. rewrite Hlast in H.
  apply bind_Ret in H as ([next_server rng] & Hnext & [= <-]).
  exists next_server. proj_simpl. split; [apply elem_of_put|]. split.
  { rewrite count_ev_put. simpl. f_equal.
    destruct (if 0 <? length queue_i then tail queue_i else queue_i); [done|].
    by rewrite count_ev_put. }
  destruct (i =? 0) eqn:Hi0.
  - apply Nat.eqb_eq in Hi0. subst i. injection Hnext as <- <-.
    split; [by left|]. split; [done|]. done.
  - apply Nat.eqb_neq in Hi0.
    apply bind_Ret in Hnext as (p_i & Hp%getitem_Ret & Hnext).
    unfold random.uniform01 in Hnext.
    destruct (Qlt_bool p_i (unif_draw O (s_rng s))) eqn:Hu.
    + injection Hnext as <- <-. split; [by left|]. split; [done|].
      intros _ p_i' Hp'. rewrite Hp in Hp'. injection Hp' as <-. by rewrite Hu.
    + apply bind_Ret in Hnext as (j & Hj%choice_seq_lt & [= <- <-]).
      split; [by right|]. split; [done|].
      intros _ p_i' Hp'. rewrite Hp in Hp'. injection Hp' as <-. rewrite Hu.
      split; [lia|done].
Qed.

(** X8: a pass that handles the [FINISH] of client [c] at the last station
    counts one departure, records the time as the client's last departure
    stamp there, draws no random number, changes no arrival count and
    sends the client nowhere. *)
Theorem last_station_departure s s' t c i rest :
  s_events s = (t, (FINISH, c, i)) :: rest ->
  Z.of_nat i = (n - 1)%Z ->
  loop_body time n lambda_arrival_time mu_wait_time p O s = Ret s' ->
  s_n_d s' = S (s_n_d s) /\ s_n_a s' = s_n_a s /\ s_rng s' = s_rng s /\
  stamps (s_d s') i c = stamps (s_d s) i c ++ [t] /\
  count_ev is_assigned (s_events s') = count_ev is_assigned rest.
Proof.
  intros He Hlast H. unfold loop_body in H. rewrite He in H. simpl in H.
  apply bind_Ret in H as (queue_i & _ & H).
  apply bind_Ret in H as (d_i & Hd%getitem_Ret & H).
  apply Z.eqb_eq in Hlast. rewrite Hlast in H. injection H as <-. proj_simpl.
  repeat split; try done.
  - rewrite stamps_insert by done. by rewrite decide_True.
  - destruct (if 0 <? length queue_i then tail queue_i else queue_i); [done|].
    by rewrite count_ev_put.
Qed.

(** X9: in fixed-horizon mode with a horizon that is not positive the
    loop makes no pass: the run returns with the clock at 0, no arrival,
    no departure and an empty trace, whatever the fuel. *)
Theorem no_time_no_run fuel :
  Qeq_bool lambda_arrival_time 0 = false -> Qlt_bool 0 time = false ->
  exists s,
    servers_simulation time n lambda_arrival_time mu_wait_time p false O fuel
    = Ret s /\
    s_t s = 0%Q /\ s_n_a s = 0 /\ s_n_d s = 0 /\
    forall i c, stamps (s_q s) i c = [] /\ stamps (s_a s) i c = []
                /\ stamps (s_d s) i c = [].
Proof.
  intros Hl Ht. unfold servers_simulation, initial_state, random.expovariate.
  rewrite Hl. simpl. eexists. split.
  - destruct fuel; simpl; unfold loop_guard; simpl; rewrite Ht; reflexivity.
  - simpl. repeat split; try done; unfold stamps; by rewrite slots_replicate.
Qed.

Lemma loop_body_first_entered first s s' :
  numbered s -> first_entered first s ->
  loop_body time n lambda_arrival_time mu_wait_time p O s = Ret s' ->
  first_entered first s'.
Proof.
  intros Hnum [[Hz He]|[Hpos Hh]] H; right.
  - unfold loop_body in H. rewrite He in H. simpl in H.
    apply bind_Ret in H as (q_i & Hq%getitem_Ret & H).
    apply bind_Ret in H as (queue_i & _ & H).
    apply bind_Ret in H as (gap & _ & [= <-]). proj_simpl. split; [lia|].
    rewrite stamps_insert by done. rewrite decide_True by done.
    destruct Hnum as [_ _ Nq _ _ _]. rewrite Hz, Nq by lia. done.
  - destruct (s_events s) as [|[t [[k c] i]] rest] eqn:He.
    { unfold loop_body in H. by rewrite He in H. }
    unfold loop_body in H. rewrite He in H. simpl in H. destruct k.
    + apply bind_Ret in H as (q_i & Hq%getitem_Ret & H).
      apply bind_Ret in H as (queue_i & _ & H).
      destruct (i =? 0) eqn:Hi0.
      * apply Nat.eqb_eq in Hi0. subst i.
        apply bind_Ret in H as (gap & _ & [= <-]). proj_simpl. split; [lia|].
        rewrite stamps_insert by done. simpl. rewrite decide_False by lia. done.
      * apply Nat.eqb_neq in Hi0. injection H as <-. proj_simpl. split; [done|].
        rewrite stamps_insert by done. rewrite decide_False by lia. done.
    + apply bind_Ret in H as (a_i & _ & H).
      apply bind_Ret in H as (mu & _ & H).
      by apply bind_Ret in H as (duration & _ & [= <-]).
    + apply bind_Ret in H as (queue_i & _ & H).
      apply bind_Ret in H as (d_i & _ & H).
      destruct (Z.of_nat i =? n - 1)%Z.
      * by injection H as <-.
      * by apply bind_Ret in H as ([next_server rng] & _ & [= <-]).
Qed.

(** X10: in drain mode the horizon does not gate the first arrival: a run
    that returns has taken at least one client, and client 0 entered
    station 0 at the time of the first inter-arrival draw. *)
Theorem drain_takes_first_arrival fuel s :
  (1 <= n)%Z ->
  servers_simulation time n lambda_arrival_time mu_wait_time p true O fuel = Ret s ->
  1 <= s_n_a s /\
  stamps (s_q s) 0 0 = [(0 + exp_draw O 0 / lambda_arrival_time)%Q].
Proof.
  intros Hn H.
  pose proof (servers_simulation_snapshot _ _ _ _ _ _ _ _ _ H) as Hsnap.
  pose proof (snapshot_numbered _ _ _ _ _ _ _ _ _ Hsnap) as Hnum.
  assert (He : s_events s = []).
  { apply bind_Ret in H as (s0 & _ & H).
    apply while_loop_exit in H. unfold loop_guard in H. simpl in H.
    apply negb_false_iff in H. by destruct (s_events s). }
  assert (Hf : first_entered (0 + exp_draw O 0 / lambda_arrival_time)%Q s).
  { apply bind_Ret in Hsnap as (s0 & H0 & Hp).
    assert (F0 : first_entered (0 + exp_draw O 0 / lambda_arrival_time)%Q s0).
    { unfold initial_state, random.expovariate in H0.
      destruct (Qeq_bool lambda_arrival_time 0); [done|].
      simpl in H0. injection H0 as <-. by left. }
    pose proof (initial_numbered _ _ _ _ H0) as N0. clear H0 H.
    revert s0 F0 N0 Hp. induction fuel as [|k IH]; simpl; intros s0 F0 N0 Hp.
    - by injection Hp as <-.
    - destruct (loop_guard time true s0); [|by injection Hp as <-].
      apply bind_Ret in Hp as (s1 & H1 & Hp). eapply (IH s1); [| |done].
      + by eapply loop_body_first_entered.
      + by eapply loop_body_numbered. }
  destruct Hf as [[_ Hev]|[Hpos Hh]]; [by rewrite He in Hev|].
  split; [done|]. destruct Hnum as [_ _ _ _ _ Nf]. specialize (Nf 0 Hpos).
  destruct (stamps (s_q s) 0 0) as [|x [|y l]]; try done.
  simpl in Hh. by injection Hh as ->.
Qed.
End engine.

(** ** Bounds of the replication controller *)

Lemma var_some (l : list (option Q)) x :
  np.var l = Some x -> Forall (fun y => y <> None) l.
Proof.
  unfold np.var. intros H.
  destruct (mapM id l) as [xs|] eqn:E; [|done].
  apply mapM_Some in E. clear H. induction E as [|y z l k Hy _ IH]; [done|].
  constructor; [|done]. simpl in Hy. congruence.
Qed.

Lemma converged_no_nan (np_sqrt : Q -> Q) threshold (l : list (option Q)) :
  converged (np.std np_sqrt) threshold l = true -> Forall (fun y => y <> None) l.
Proof.
  unfold converged, np.std. destruct (np.var l) as [v|] eqn:E; [|done].
  intros _. by eapply var_some.
Qed.

Section controller_bounds.
Variables (time : Q) (n : Z) (lambda_arrival_time : Q).
Variables (mu_wait_time p : list Q) (finish : bool).
Variable Os : nat -> Oracle.
Variable fuel : nat.
Variable np_std : list (option Q) -> option Q.
Variables (min_it max_it : nat).
Variable threshold : Q.

Lemma controller_loop_lengths k : forall it acc acc',
  length (acc_system_time acc) = it ->
  length (acc_wait_time acc) = it ->
  length (acc_use_time acc) = it ->
  controller_loop time n lambda_arrival_time mu_wait_time p finish Os fuel
    np_std min_it max_it threshold k it acc = Ret acc' ->
  exists j, it < j <= it + k /\
    length (acc_system_time acc') = j /\
    length (acc_wait_time acc') = j /\
    length (acc_use_time acc') = j /\
    (max_it <= j \/
     (min_it <= j /\ converged np_std threshold (acc_system_time acc') = true)).
Proof.
  induction k as [|k IH]; intros it acc acc' L1 L2 L3 H; [done|].
  simpl in H. apply bind_Ret in H as (m & _ & H).
  assert (L1' : length (acc_system_time (record_run acc m)) = S it)
    by (simpl; rewrite length_app; simpl; lia).
  assert (L2' : length (acc_wait_time (record_run acc m)) = S it)
    by (simpl; rewrite length_app; simpl; lia).
  assert (L3' : length (acc_use_time (record_run acc m)) = S it)
    by (simpl; rewrite length_app; simpl; lia).
  destruct (max_it <=? S it) eqn:Emax.
  - injection H as <-. apply Nat.leb_le in Emax. exists (S it).
    split; [lia|]. do 3 (split; [done|]). left. lia.
  - destruct (min_it <=? S it) eqn:Emin; simpl in H.
    + destruct (converged np_std threshold _) eqn:Ec.
      * injection H as <-. apply Nat.leb_le in Emin. exists (S it).
        split; [lia|]. do 3 (split; [done|]). right. split; [lia|done].
      * destruct (IH _ _ _ L1' L2' L3' H) as (j & Hj & R).
        exists j. split; [lia|done].
    + destruct (IH _ _ _ L1' L2' L3' H) as (j & Hj & R).
      exists j. split; [lia|done].
Qed.

Lemma replications_lengths acc :
  replications time n lambda_arrival_time mu_wait_time p finish Os fuel np_std
    min_it max_it threshold = Ret acc ->
  exists j, 0 < j <= Nat.max 1 max_it /\
    length (acc_system_time acc) = j /\
    length (acc_wait_time acc) = j /\
    length (acc_use_time acc) = j /\
    (max_it <= j \/
     (min_it <= j /\ converged np_std threshold (acc_system_time acc) = true)).
Proof.
  intros H. unfold replications in H.
  by apply controller_loop_lengths in H.
Qed.
End controller_bounds.

(** X16: when [run_simulation]'s loop returns, it has made between 1000
    and 5000 runs, the three lists of per-run means have one entry per
    run, and if fewer than 5000 runs were made the convergence test
    holds of the system-time means. *)
Theorem replications_between_bounds (time : Q) (n : Z) (lambda_arrival_time : Q)
  (mu_wait_time p : list Q) (finish : bool) (Os : nat -> Oracle) (fuel : nat)
  (np_std : list (option Q) -> option Q) (threshold : Q) (acc : Accum) :
  replications time n lambda_arrival_time mu_wait_time p finish Os fuel np_std
    min_iterations max_iterations threshold = Ret acc ->
  min_iterations <= length (acc_system_time acc) <= max_iterations /\
  length (acc_wait_time acc) = length (acc_system_time acc) /\
  length (acc_use_time acc) = length (acc_system_time acc) /\
  (length (acc_system_time acc) < max_iterations ->
   converged np_std threshold (acc_system_time acc) = true).
Proof.
  intros H.
  apply replications_lengths in H as (j & Hj & L1 & L2 & L3 & Hstop).
  assert (Hmm : 1 <= min_iterations <= max_iterations /\
                Nat.max 1 max_iterations = max_iterations).
  { unfold min_iterations, max_iterations. lia. }
  destruct Hmm as [Hmm Hmax]. rewrite Hmax in Hj.
  rewrite L1, L2, L3. repeat split; try lia.
  intros Hlt. destruct Hstop as [?|[_ ?]]; [lia|done].
Qed.

(** X17: a single run whose mean system time is [nan] (a run with no
    arrival) keeps the convergence test from ever holding: the loop then
    makes all 5000 runs. *)
Theorem nan_runs_to_the_maximum (time : Q) (n : Z) (lambda_arrival_time : Q)
  (mu_wait_time p : list Q) (finish : bool) (Os : nat -> Oracle) (fuel : nat)
  (np_sqrt : Q -> Q) (threshold : Q) (acc : Accum) :
  replications time n lambda_arrival_time mu_wait_time p finish Os fuel
    (np.std np_sqrt) min_iterations max_iterations threshold = Ret acc ->
  None ∈ acc_system_time acc ->
  length (acc_system_time acc) = max_iterations.
Proof.
  intros H Hnan.
  apply replications_lengths in H as (j & Hj & L1 & L2 & L3 & Hstop).
  assert (Hmm : 1 <= min_iterations <= max_iterations /\
                Nat.max 1 max_iterations = max_iterations).
  { unfold min_iterations, max_iterations. lia. }
  destruct Hmm as [Hmm Hmax]. rewrite Hmax in Hj.
  destruct Hstop as [?|[_ Hc]]; [lia|].
  apply converged_no_nan in Hc. rewrite Forall_forall in Hc.
  by specialize (Hc None Hnan).
Qed.

Section no_time.
Variables (time : Q) (n : Z) (lambda_arrival_time : Q).
Variables (mu_wait_time p : list Q).
Variable Os : nat -> Oracle.
Variable fuel : nat.
Hypothesis Hl : Qeq_bool lambda_arrival_time 0 = false.
Hypothesis Ht : Qlt_bool 0 time = false.

Lemma nanmean_all_nan {A} (l : list A) :
  np.nanmean (map (fun _ => None) l) = None.
Proof. by destruct l. Qed.

Lemma no_time_metrics k :
  exists m,
    replication time n lambda_arrival_time mu_wait_time p false Os fuel k = Ret m /\
    np.mean (m_system_time m) = None /\
    np.nanmean (m_wait_time m) = None /\
    np.nanmean (m_use_time m) = None.
Proof.
  unfold replication, metrics_by_simulation, servers_simulation, initial_state,
    random.expovariate.
  rewrite Hl. simpl.
  assert (Hw : forall s0,
            while_loop time n lambda_arrival_time mu_wait_time p false (Os k) fuel
              (mkState 0 s0 0 0 (replicate (Z.to_nat n) ∅)
                 (replicate (Z.to_nat n) ∅) (replicate (Z.to_nat n) ∅)
                 (replicate (Z.to_nat n) []) 1)
            = Ret (mkState 0 s0 0 0 (replicate (Z.to_nat n) ∅)
                     (replicate (Z.to_nat n) ∅) (replicate (Z.to_nat n) ∅)
                     (replicate (Z.to_nat n) []) 1)).
  { intros s0. destruct fuel; simpl; unfold loop_guard; simpl; by rewrite Ht. }
  rewrite Hw. simpl. eexists. split; [done|].
  rewrite reduce_view. cbn [m_system_time m_wait_time m_use_time].
  split; [|split].
  - assert (E : forall l : list Q, length l = 0 -> np.mean l = None)
      by (by intros [|]).
    apply E. by rewrite system_time_length.
  - exact (nanmean_all_nan (seq 0 (Z.to_nat n))).
  - exact (nanmean_all_nan (seq 0 (Z.to_nat n))).
Qed.

Lemma no_time_accs j :
  acc_after time n lambda_arrival_time mu_wait_time p false Os fuel j
  = mkAccum (replicate j None) (replicate j None) (replicate j None).
Proof.
  induction j as [|j IH]; [done|].
  rewrite acc_after_S, IH, !replicate_S_end. unfold metrics_of.
  destruct (no_time_metrics j) as (m & -> & Hs & Hw & Hu).
  unfold record_run. cbn [acc_system_time acc_wait_time acc_use_time].
  by rewrite Hs, Hw, Hu.
Qed.

Lemma var_nan j : 0 < j -> np.var (replicate j None) = None.
Proof. by destruct j; [lia|]. Qed.

Lemma nanmean_nan j : np.nanmean (replicate j None) = None.
Proof. by destruct j. Qed.

Section any_bounds.
Variables (min_it max_it : nat) (threshold : Q) (np_sqrt : Q -> Q).
Hypothesis Hmax : 1 <= max_it.

Lemma no_time_replications :
  replications time n lambda_arrival_time mu_wait_time p false Os fuel
    (np.std np_sqrt) min_it max_it threshold
  = Ret (mkAccum (replicate max_it None) (replicate max_it None)
           (replicate max_it None)).
Proof.
  unfold replications. rewrite (Nat.max_r 1 max_it) by done.
  rewrite <- no_time_accs.
  change (mkAccum [] [] []) with
    (acc_after time n lambda_arrival_time mu_wait_time p false Os fuel 0).
  replace max_it with (0 + (max_it - 1) + 1) at 3 by lia.
  apply controller_loop_stop.
  - lia.
  - intros j _. by destruct (no_time_metrics j) as (m & -> & _).
  - intros j Hj. unfold stop_at. rewrite no_time_accs.
    cbn [acc_system_time].
    apply orb_false_iff. split; [apply Nat.leb_gt; lia|].
    apply andb_false_iff. right. unfold converged, np.std.
    by rewrite var_nan by lia.
  - unfold stop_at. apply orb_true_iff. left. apply Nat.leb_le. lia.
Qed.

Lemma no_time_controller :
  controller time n lambda_arrival_time mu_wait_time p false Os fuel
    (np.std np_sqrt) min_it max_it threshold
  = Ret (mkReport (None, None) (None, None) (None, None)).
Proof.
  unfold controller. rewrite no_time_replications.
  cbn [mbind outcome_bind acc_system_time acc_wait_time acc_use_time].
  by rewrite !var_nan, !nanmean_nan by lia.
Qed.
End any_bounds.

(** X18: with a non-zero arrival rate, in fixed-horizon mode with a horizon
    that is not positive, [run_simulation] makes 5000 runs, each with
    [nan] for its three means, and reports [nan] for every variance and
    every mean. *)
Theorem no_time_report (np_sqrt : Q -> Q) :
  replications time n lambda_arrival_time mu_wait_time p false Os fuel
    (np.std np_sqrt) min_iterations max_iterations convergence_threshold
  = Ret (mkAccum (replicate max_iterations None) (replicate max_iterations None)
           (replicate max_iterations None)) /\
  run_simulation time n lambda_arrival_time mu_wait_time p false Os fuel np_sqrt
  = Ret (mkReport (None, None) (None, None) (None, None)).
Proof.
  assert (Hmax : 1 <= max_iterations) by (unfold max_iterations; lia).
  split.
  - by apply no_time_replications.
  - unfold run_simulation. by apply no_time_controller.
Qed.
End no_time.

(** ** The event order and the generators *)

Lemma poisson_loop_spec float_mul O L fuel : forall k p rng r rng',
  regression.poisson_loop float_mul O L fuel k p rng = regression.Ok (r, rng') <->
  exists m, m < fuel /\ r = k + m /\ rng' = rng + S m /\
    Qle_bool (foldl (fun p k => float_mul p (unif_draw O k)) p (seq rng (S m))) L
    = true /\
    forall j, j < m ->
      Qle_bool (foldl (fun p k => float_mul p (unif_draw O k)) p (seq rng (S j))) L
      = false.
Proof.
  induction fuel as [|fuel IH]; intros k p rng r rng'.
  { simpl. split; [done|]. intros (m & ? & _). lia. }
  cbn [regression.poisson_loop]. unfold random.uniform01.
  destruct (Qle_bool (float_mul p (unif_draw O rng)) L) eqn:E.
  - split.
    + intros [= <- <-]. exists 0.
      split; [lia|]. split; [lia|]. split; [lia|]. split; [done|]. intros; lia.
    + intros (m & Hm & -> & -> & Hle & Hgt). destruct m as [|m].
      * f_equal. f_equal; lia.
      * specialize (Hgt 0 ltac:(lia)). simpl in Hgt. congruence.
  - rewrite IH. split.
    + intros (m & Hm & -> & -> & Hle & Hgt). exists (S m).
      split; [lia|]. split; [lia|]. split; [lia|]. split; [done|].
      intros [|j] Hj; [done|]. apply (Hgt j). lia.
    + intros (m & Hm & -> & -> & Hle & Hgt). destruct m as [|m].
      { simpl in Hle. congruence. }
      exists m. split; [lia|]. split; [lia|]. split; [lia|]. split; [done|].
      intros j Hj. apply (Hgt (S j)). lia.
Qed.

Lemma poisson_loop_no_error float_mul O L fuel e : forall k p rng,
  regression.poisson_loop float_mul O L fuel k p rng <> regression.Err e.
Proof.
  induction fuel as [|fuel IH]; intros k p rng; [done|].
  cbn [regression.poisson_loop]. destruct (Qle_bool _ L); [done|]. apply IH.
Qed.

(** X20: [generate_poisson] raises [OverflowError], before any draw, when
    [math.exp(-lambd)] is out of the range of floats. Otherwise it raises
    nothing, and it returns [r] exactly when the product of the first
    [r + 1] uniform draws, multiplied as floats, is the first running
    product that is at most [exp(-lambd)]; it has then made [r + 1]
    draws. *)
Theorem generate_poisson_first_passage (math_exp : Q -> option Q)
  (float_mul : Q -> Q -> Q) (O : Oracle) (lambd : Q) (rng fuel : nat) :
  (math_exp (- lambd) = None ->
   regression.generate_poisson math_exp float_mul O lambd rng fuel
   = regression.Err regression.OverflowError) /\
  (forall L, math_exp (- lambd) = Some L ->
     (forall r rng',
        regression.generate_poisson math_exp float_mul O lambd rng fuel
        = regression.Ok (r, rng') <->
        r < fuel /\ rng' = rng + r + 1 /\
        (product_of_draws float_mul O rng (r + 1) <= L)%Q /\
        forall j, j < r -> (L < product_of_draws float_mul O rng (j + 1))%Q) /\
     forall e,
       regression.generate_poisson math_exp float_mul O lambd rng fuel
       <> regression.Err e).
Proof.
  split; [intros HL; unfold regression.generate_poisson; by rewrite HL|].
  intros L HL. unfold regression.generate_poisson. rewrite HL.
  split; [|intros e; apply poisson_loop_no_error].
  intros r rng'. unfold product_of_draws. rewrite poisson_loop_spec.
  split.
  - intros (m & Hm & -> & -> & Hle & Hgt). simpl. split; [done|]. split; [lia|].
    rewrite Nat.add_1_r. split; [by apply Qle_bool_iff|].
    intros j Hj. rewrite Nat.add_1_r. apply Qnot_le_lt. rewrite <- Qle_bool_iff.
    by rewrite Hgt.
  - intros (Hr & -> & Hle & Hgt). exists r. split; [done|]. split; [done|].
    split; [lia|]. rewrite Nat.add_1_r in Hle. split; [by apply Qle_bool_iff|].
    intros j Hj. specialize (Hgt j Hj). rewrite Nat.add_1_r in Hgt.
    apply not_true_is_false. rewrite Qle_bool_iff. by apply Qlt_not_le.
Qed.

(** X21: every call of [simulation], whatever its arguments, ends in a
    [TypeError] at the first inter-arrival draw, and so does every call
    of [generate_exponential] and of [generate_bernoulli]: they call
    [random.uniform] without its two arguments. *)
Theorem simulation_raises_TypeError (math_log : Q -> Q) (n : Z)
  (lambda_arrival_time lambda_wait_time : Q) (fuel : nat) (lambd p : Q) :
  regression.simulation math_log n lambda_arrival_time lambda_wait_time (S fuel)
  = regression.Err regression.TypeError /\
  regression.generate_exponential math_log lambd = regression.Err regression.TypeError /\
  regression.generate_bernoulli p = regression.Err regression.TypeError.
Proof. done. Qed.

(** X19: the order in which Python compares event tuples is a strict total
    order: no event is before itself, the order is transitive, and two
    events neither of which is before the other have equal times and the
    same kind, client and station. At equal times the kind decides:
    [ASIGNED] before [ARRIVAL] before [FINISH]. *)
Theorem event_order_total (x y z : Event) :
  event_lt x x = false /\
  (event_lt x y = true -> event_lt y z = true -> event_lt x z = true) /\
  (event_lt x y = false -> event_lt y x = false -> (x.1 == y.1)%Q /\ x.2 = y.2) /\
  ((x.1 == y.1)%Q -> value x.2.1.1 < value y.2.1.1 -> event_lt x y = true).
Proof.
  split; [|split; [|split]].
  - apply not_true_is_false. intros H%event_lt_iff. by eapply event_before_asym.
  - rewrite !event_lt_iff. apply event_before_trans.
  - intros H1 H2.
    assert (N1 : ~ event_before x y) by (rewrite <- event_lt_iff; congruence).
    assert (N2 : ~ event_before y x) by (rewrite <- event_lt_iff; congruence).
    unfold event_before, payload_before in N1, N2.
    destruct x as [t1 [[e1 c1] i1]], y as [t2 [[e2 c2] i2]]. simpl in *.
    assert (Ht : (t1 == t2)%Q).
    { destruct (Q_dec t1 t2) as [[?|?]|?]; [tauto|tauto|done]. }
    split; [done|].
    assert (value e1 = value e2 /\ c1 = c2 /\ i1 = i2) as (He & -> & ->).
    { assert (Ht' : (t2 == t1)%Q) by lra.
      assert (P1 : ~ (value e1 < value e2 \/
                      (value e1 = value e2 /\ (c1 < c2 \/ (c1 = c2 /\ i1 < i2)))))
        by (intros ?; apply N1; by right).
      assert (P2 : ~ (value e2 < value e1 \/
                      (value e2 = value e1 /\ (c2 < c1 \/ (c2 = c1 /\ i2 < i1)))))
        by (intros ?; apply N2; by right).
      lia. }
    by destruct e1, e2.
  - intros Ht Hv. apply event_lt_iff. right. split; [done|]. by left.
Qed.

(** ** Instances of the further properties *)

Lemma arrivals_number_station_0_witness :
  exists s,
    snapshot 10 1 1 [1]%Q [0]%Q false runs.queued 3 = Ret s /\
    length (stamps (s_q s) 0 1) = (if 1 <? s_n_a s then 1 else 0) /\
    forall i, s_n_a s <= 1 ->
      stamps (s_q s) i 1 = [] /\ stamps (s_a s) i 1 = []
      /\ stamps (s_d s) i 1 = [].
Proof.
  eexists. split; [vm_compute; reflexivity|].
  apply (arrivals_number_station_0 10 1 1 [1]%Q [0]%Q false runs.queued 3).
  vm_compute; reflexivity.
Defined.

Lemma clock_never_goes_back_witness :
  exists s,
    snapshot 10 2 1 [1; 1]%Q [0; 0]%Q false runs.late 2 = Ret s /\
    (0 <= s_t s)%Q /\
    Forall (fun x => (s_t s <= x.1)%Q) (s_events s) /\
    forall s', loop_body 10 2 1 [1; 1]%Q [0; 0]%Q runs.late s = Ret s' ->
               (s_t s <= s_t s')%Q.
Proof.
  eexists. split; [vm_compute; reflexivity|].
  apply (clock_never_goes_back 10 2 1 [1; 1]%Q [0; 0]%Q false runs.late 2).
  - split; [reflexivity|]. split; [repeat constructor|].
    intros k. do 4 (destruct k as [|k]; [discriminate|]). discriminate.
  - vm_compute; reflexivity.
Defined.

Lemma visits_in_order_witness :
  exists s,
    snapshot 10 2 1 [1; 1]%Q [0; 0]%Q false runs.late 3 = Ret s /\
    visits_ordered (stamps (s_q s) 0 0) (stamps (s_a s) 0 0) /\
    visits_ordered (stamps (s_a s) 0 0) (stamps (s_d s) 0 0) /\
    Forall (fun x => (x <= s_t s)%Q) (stamps (s_d s) 0 0).
Proof.
  eexists. split; [vm_compute; reflexivity|].
  apply (visits_in_order 10 2 1 [1; 1]%Q [0; 0]%Q false runs.late 3).
  - split; [reflexivity|]. split; [repeat constructor|].
    intros k. do 4 (destruct k as [|k]; [discriminate|]). discriminate.
  - vm_compute; reflexivity.
Defined.

Lemma one_service_per_station_witness :
  exists s,
    snapshot 10 1 1 [1]%Q [0]%Q false runs.queued 3 = Ret s /\
    count_ev (serving 0) (s_events s) <= 1 /\
    (count_ev (serving 0) (s_events s) = 0 <-> s_queue s !!! 0 = []).
Proof.
  eexists. split; [vm_compute; reflexivity|].
  apply (one_service_per_station 10 1 1 [1]%Q [0]%Q false runs.queued 3).
  vm_compute; reflexivity.
Defined.

Lemma forward_visits_once_witness :
  exists s,
    snapshot 10 2 1 [1; 1]%Q [0; 0]%Q true runs.late 4 = Ret s /\
    length (stamps (s_q s) 0 0) <= 1 /\
    length (stamps (s_q s) 1 0) <= length (stamps (s_d s) 0 0).
Proof.
  eexists. split; [vm_compute; reflexivity|].
  apply (forward_visits_once 10 2 1 [1; 1]%Q [0; 0]%Q true runs.late 4).
  - intros [|[|i]] p_i k [=]; subst; reflexivity.
  - vm_compute; reflexivity.
Defined.

Lemma forward_conservation_witness :
  exists s,
    snapshot 10 2 1 [1; 1]%Q [0; 0]%Q true runs.late 3 = Ret s /\
    s_n_a s = s_n_d s + sum_list_with length (s_queue s)
              + count_ev in_transit (s_events s).
Proof.
  eexists. split; [vm_compute; reflexivity|].
  apply (forward_conservation 10 2 1 [1; 1]%Q [0; 0]%Q true runs.late 3).
  - intros [|[|i]] p_i k [=]; subst; reflexivity.
  - vm_compute; reflexivity.
Defined.

Lemma routing_rule_witness :
  exists s s' t rest,
    snapshot 10 3 1 [1; 1; 1]%Q [0; 1 # 2; 0]%Q true (runs.fed_back (3 # 10)) 5
    = Ret s /\
    s_events s = (t, (FINISH, 0, 1)) :: rest /\
    loop_body 10 3 1 [1; 1; 1]%Q [0; 1 # 2; 0]%Q (runs.fed_back (3 # 10)) s
    = Ret s' /\
    exists next_server,
      (t, (ASIGNED, 0, next_server)) ∈ s_events s' /\
      count_ev is_assigned (s_events s') = S (count_ev is_assigned rest) /\
      (next_server = 1 + 1 \/ next_server < 1) /\
      (1 = 0 -> next_server = 1 /\ s_rng s' = s_rng s) /\
      (1 <> 0 -> forall p_i, [0; 1 # 2; 0]%Q !! 1 = Some p_i ->
         next_server = 1 + 1 <->
         Qlt_bool p_i (unif_draw (runs.fed_back (3 # 10)) (s_rng s)) = true).
Proof.
  do 4 eexists. split; [vm_compute; reflexivity|].
  split; [vm_compute; reflexivity|]. split; [vm_compute; reflexivity|].
  apply (routing_rule 10 3 1 [1; 1; 1]%Q [0; 1 # 2; 0]%Q
           (runs.fed_back (3 # 10))).
  - vm_compute; reflexivity.
  - lia.
  - vm_compute; reflexivity.
Defined.

Lemma last_station_departure_witness :
  exists s s' t rest,
    snapshot 10 2 1 [1; 1]%Q [0; 0]%Q true runs.late 5 = Ret s /\
    s_events s = (t, (FINISH, 0, 1)) :: rest /\
    loop_body 10 2 1 [1; 1]%Q [0; 0]%Q runs.late s = Ret s' /\
    s_n_d s' = S (s_n_d s) /\ s_n_a s' = s_n_a s /\ s_rng s' = s_rng s /\
    stamps (s_d s') 1 0 = stamps (s_d s) 1 0 ++ [t] /\
    count_ev is_assigned (s_events s') = count_ev is_assigned rest.
Proof.
  do 4 eexists. split; [vm_compute; reflexivity|].
  split; [vm_compute; reflexivity|]. split; [vm_compute; reflexivity|].
  apply (last_station_departure 10 2 1 [1; 1]%Q [0; 0]%Q runs.late).
  - vm_compute; reflexivity.
  - lia.
  - vm_compute; reflexivity.
Defined.

Lemma no_time_no_run_witness :
  exists s,
    servers_simulation 0 2 1 [1; 1]%Q [0; 0]%Q false runs.late 7 = Ret s /\
    s_t s = 0%Q /\ s_n_a s = 0 /\ s_n_d s = 0 /\
    forall i c, stamps (s_q s) i c = [] /\ stamps (s_a s) i c = []
                /\ stamps (s_d s) i c = [].
Proof.
  apply (no_time_no_run 0 2 1 [1; 1]%Q [0; 0]%Q runs.late 7); reflexivity.
Defined.

Lemma drain_takes_first_arrival_witness :
  exists s,
    servers_simulation 0 2 1 [1; 1]%Q [0; 0]%Q true runs.late 100 = Ret s /\
    1 <= s_n_a s /\
    stamps (s_q s) 0 0 = [(0 + exp_draw runs.late 0 / 1)%Q].
Proof.
  eexists. split; [vm_compute; reflexivity|].
  apply (drain_takes_first_arrival 0 2 1 [1; 1]%Q [0; 0]%Q runs.late 100).
  - lia.
  - vm_compute; reflexivity.
Defined.

Lemma system_time_beyond_departures_witness :
  exists s,
    servers_simulation 10 1 1 [1]%Q [0]%Q false runs.queued 100 = Ret s /\
    s_n_d s <= 1 /\ 1 < s_n_a s /\
    m_system_time
      (reduce (s_t s) 1 (s_n_a s) (s_n_d s) (s_q s) (s_a s) (s_d s)) !! 1
    = Some 0%Q.
Proof.
  eexists. split; [vm_compute; reflexivity|].
  split; [vm_compute; lia|]. split; [vm_compute; lia|].
  apply system_time_beyond_departures; vm_compute; lia.
Defined.

Lemma system_time_of_departed_witness :
  exists s,
    servers_simulation 10 2 1 [1; 1]%Q [0; 0]%Q true runs.late 100 = Ret s /\
    served (s_q s) (s_a s) (s_d s) 0 0 = true /\
    served (s_q s) (s_a s) (s_d s) 1 0 = true /\
    m_system_time
      (reduce (s_t s) 2 (s_n_a s) (s_n_d s) (s_q s) (s_a s) (s_d s)) !! 0
    = Some (0 - default 0 (head (stamps (s_q s) 0 0))
            + default 0 (last (stamps (s_d s) (Z.to_nat 2 - 1) 0)))%Q.
Proof.
  eexists. split; [vm_compute; reflexivity|].
  split; [vm_compute; reflexivity|]. split; [vm_compute; reflexivity|].
  apply system_time_of_departed.
  - lia.
  - vm_compute; lia.
  - vm_compute; lia.
  - vm_compute; reflexivity.
  - vm_compute; reflexivity.
Defined.

Lemma station_means_witness :
  exists s,
    servers_simulation 10 1 1 [1]%Q [0]%Q false runs.queued 100 = Ret s /\
    let m := reduce (s_t s) 1 (s_n_a s) (s_n_d s) (s_q s) (s_a s) (s_d s) in
    m_wait_time m !! 0
    = Some (np.mean (waits (s_t s) (s_n_a s) (s_q s) (s_a s) 0)) /\
    m_use_time m !! 0
    = Some (np.mean (uses (s_n_a s) (s_q s) (s_a s) (s_d s) 0)) /\
    (m_wait_time m !! 0 = Some None <->
     forall c, c < s_n_a s -> stamps (s_q s) 0 c = []).
Proof.
  eexists. split; [vm_compute; reflexivity|].
  apply station_means. vm_compute; lia.
Defined.

Lemma drained_system_times_witness :
  exists s,
    servers_simulation 10 2 1 [1; 1]%Q [0; 0]%Q true runs.late 100 = Ret s /\
    0 < s_n_a s /\
    exists m entered left,
      metrics_by_simulation 10 2 1 [1; 1]%Q [0; 0]%Q true runs.late 100
      = Ret m /\
      stamps (s_q s) 0 0 = [entered] /\
      stamps (s_d s) (Z.to_nat 2 - 1) 0 = [left] /\
      m_system_time m !! 0 = Some (0 - entered + left)%Q.
Proof.
  eexists. split; [vm_compute; reflexivity|]. split; [vm_compute; lia|].
  apply (drained_system_times 10 2 1 [1; 1]%Q [0; 0]%Q runs.late 100).
  - intros [|[|i]] p_i k [=]; subst; reflexivity.
  - lia.
  - vm_compute; reflexivity.
  - vm_compute; lia.
Defined.

Lemma replications_between_bounds_witness :
  let acc :=
    mkAccum (replicate max_iterations None) (replicate max_iterations None)
      (replicate max_iterations None) in
  replications 0 2 1 [1; 1]%Q [0; 0]%Q false (fun _ => runs.late) 10
    (np.std (fun x => x)) min_iterations max_iterations convergence_threshold
  = Ret acc /\
  min_iterations <= length (acc_system_time acc) <= max_iterations /\
  length (acc_wait_time acc) = length (acc_system_time acc) /\
  length (acc_use_time acc) = length (acc_system_time acc) /\
  (length (acc_system_time acc) < max_iterations ->
   converged (np.std (fun x => x)) convergence_threshold (acc_system_time acc)
   = true).
Proof.
  intros acc.
  assert (H : replications 0 2 1 [1; 1]%Q [0; 0]%Q false (fun _ => runs.late)
                10 (np.std (fun x => x)) min_iterations max_iterations
                convergence_threshold = Ret acc).
  { apply no_time_replications; [reflexivity|reflexivity|].
    unfold max_iterations. lia. }
  split; [exact H|].
  exact (replications_between_bounds 0 2 1 [1; 1]%Q [0; 0]%Q false
           (fun _ => runs.late) 10 (np.std (fun x => x)) convergence_threshold
           acc H).
Defined.

Lemma nan_runs_to_the_maximum_witness :
  let acc :=
    mkAccum (replicate max_iterations None) (replicate max_iterations None)
      (replicate max_iterations None) in
  replications 0 1 1 [1]%Q [0]%Q false (fun _ => runs.queued) 10
    (np.std (fun x => x)) min_iterations max_iterations convergence_threshold
  = Ret acc /\
  None ∈ acc_system_time acc /\
  length (acc_system_time acc) = max_iterations.
Proof.
  intros acc.
  assert (H : replications 0 1 1 [1]%Q [0]%Q false (fun _ => runs.queued)
                10 (np.std (fun x => x)) min_iterations max_iterations
                convergence_threshold = Ret acc).
  { apply no_time_replications; [reflexivity|reflexivity|].
    unfold max_iterations. lia. }
  assert (Hnan : None ∈ acc_system_time acc).
  { unfold acc. cbn [acc_system_time]. apply elem_of_replicate.
    split; [reflexivity|]. unfold max_iterations. lia. }
  split; [exact H|]. split; [exact Hnan|].
  exact (nan_runs_to_the_maximum 0 1 1 [1]%Q [0]%Q false
           (fun _ => runs.queued) 10 (fun x => x) convergence_threshold
           acc H Hnan).
Defined.

Lemma no_time_report_witness :
  replications (-1) 3 2 [1; 1; 1]%Q [0; 1 # 2; 0]%Q false
    (fun _ => runs.overtaken) 10 (np.std (fun x => x)) min_iterations
    max_iterations convergence_threshold
  = Ret (mkAccum (replicate max_iterations None)
           (replicate max_iterations None) (replicate max_iterations None)) /\
  run_simulation (-1) 3 2 [1; 1; 1]%Q [0; 1 # 2; 0]%Q false
    (fun _ => runs.overtaken) 10 (fun x => x)
  = Ret (mkReport (None, None) (None, None) (None, None)).
Proof.
  apply (no_time_report (-1) 3 2 [1; 1; 1]%Q [0; 1 # 2; 0]%Q
           (fun _ => runs.overtaken) 10); reflexivity.
Defined.

Lemma event_order_total_witness :
  let x : Event := (5%Q, (ASIGNED, 3, 1)) in
  let x' : Event := ((10 # 2)%Q, (ASIGNED, 3, 1)) in
  let y : Event := (5%Q, (ARRIVAL, 1, 0)) in
  let z : Event := (6%Q, (ASIGNED, 0, 0)) in
  event_lt x x = false /\ event_lt x z = true /\
  ((x.1 == x'.1)%Q /\ x.2 = x'.2) /\ event_lt x y = true.
Proof.
  intros x x' y z.
  destruct (event_order_total x y z) as (H1 & H2 & _ & H4).
  destruct (event_order_total x x' z) as (_ & _ & H3 & _).
  split; [exact H1|]. split; [apply H2; reflexivity|].
  split; [apply H3; reflexivity|]. apply H4; [reflexivity|]. simpl. lia.
Defined.

Lemma generate_poisson_first_passage_witness :
  let math_exp (x : Q) :=
    if Qlt_bool 709 x then None
    else if Qlt_bool x (-745) then Some 0%Q else Some (1 # 4)%Q in
  let float_mul (x y : Q) :=
    if Qlt_bool (x * y) (1 # 8) then 0%Q else (x * y)%Q in
  let halves :=
    {| exp_draw := fun _ => 1%Q;
       unif_draw := fun _ => (1 # 2)%Q;
       choice_draw := fun _ => 0 |} in
  regression.generate_poisson math_exp float_mul halves (-1000) 0 10
  = regression.Err regression.OverflowError /\
  regression.generate_poisson math_exp float_mul halves 1000 0 10
  = regression.Ok (3, 4) /\
  (3 < 10 /\ 4 = 0 + 3 + 1 /\
   (product_of_draws float_mul halves 0 (3 + 1) <= 0)%Q /\
   forall j, j < 3 -> (0 < product_of_draws float_mul halves 0 (j + 1))%Q) /\
  regression.generate_poisson math_exp float_mul halves 1 0 1
  <> regression.Err regression.OverflowError.
Proof.
  intros math_exp float_mul halves.
  pose proof (generate_poisson_first_passage math_exp float_mul halves
                (-1000) 0 10) as [Hover _].
  pose proof (generate_poisson_first_passage math_exp float_mul halves
                1000 0 10) as [_ Hlow].
  pose proof (generate_poisson_first_passage math_exp float_mul halves
                1 0 1) as [_ Hmid].
  destruct (Hlow 0%Q eq_refl) as [Hiff _].
  destruct (Hmid (1 # 4)%Q eq_refl) as [_ Hno].
  split; [apply Hover; reflexivity|].
  split; [vm_compute; reflexivity|].
  split; [apply Hiff; vm_compute; reflexivity|].
  apply Hno.
Defined.
